(** * Image watermark tool: a shallow embedding of [watermark_tool.py]

    The script reads the EXIF capture date of every image of a directory
    and burns it into a copy of the image.  This development embeds the
    five functions of the script ([get_exif_datetime],
    [get_position_coordinates], [add_watermark], [process_directory] and
    [main]) over an explicit world (file system, console, I/O log) and
    proves the properties its specification states about them.

    Python integers are [Z], Python strings are [string], [None] is
    [None : option _].  Exceptions are values of [exn] carried by a small
    state-and-error monad [M]; [try ... except Exception] is [try_except].
    What the script takes from Pillow and from the operating system
    (codecs, fonts, text metrics) is collected in the class [Platform]. *)

From Stdlib Require Import ZArith String Ascii List DecimalString.
From stdpp Require Import gmap strings list fin_maps.

Open Scope string_scope.
Open Scope list_scope.
Open Scope Z_scope.

(** ** Python strings *)

Module PyStr.

(** [c in s] for a one-character [c]. *)
Fixpoint contains (c : ascii) (s : string) : bool :=
  match s with
  | EmptyString => false
  | String x r => Ascii.eqb x c || contains c r
  end.

(** [s.replace(old, new, count)] for one-character [old] and [new]: the
    first [count] occurrences, from the left. *)
Fixpoint replace (old new : ascii) (count : nat) (s : string) : string :=
  match s, count with
  | EmptyString, _ => EmptyString
  | _, O => s
  | String x r, S n =>
      if Ascii.eqb x old then String new (replace old new n r)
      else String x (replace old new count r)
  end.

(** [s.rpartition(c)] without the separator: [Some (before, after)] around
    the last [c] of [s], [None] when [s] has no [c]. *)
Fixpoint rsplit (c : ascii) (s : string) : option (string * string) :=
  match s with
  | EmptyString => None
  | String x r =>
      match rsplit c r with
      | Some (b, a) => Some (String x b, a)
      | None => if Ascii.eqb x c then Some (EmptyString, r) else None
      end
  end.

(** [s == c * len(s)] *)
Fixpoint all_char (c : ascii) (s : string) : bool :=
  match s with
  | EmptyString => true
  | String x r => Ascii.eqb x c && all_char c r
  end.

(** [s.rstrip(c)] *)
Fixpoint rstrip (c : ascii) (s : string) : string :=
  match s with
  | EmptyString => EmptyString
  | String x r => if all_char c s then EmptyString else String x (rstrip c r)
  end.

(** [s.startswith(c)] *)
Definition startswith (c : ascii) (s : string) : bool :=
  match s with
  | EmptyString => false
  | String x _ => Ascii.eqb x c
  end.

(** [s.endswith(c)] *)
Fixpoint endswith (c : ascii) (s : string) : bool :=
  match s with
  | EmptyString => false
  | String x EmptyString => Ascii.eqb x c
  | String _ r => endswith c r
  end.

(** [s.split(c)] *)
Fixpoint split (c : ascii) (s : string) : list string :=
  match s with
  | EmptyString => [EmptyString]
  | String x r =>
      if Ascii.eqb x c then EmptyString :: split c r
      else match split c r with
           | h :: t => String x h :: t
           | [] => [String x EmptyString]
           end
  end.

(** [str(n)] for an integer. *)
Definition of_Z (n : Z) : string := NilZero.string_of_int (Z.to_int n).

End PyStr.

(** ** 4.2 Position calculator *)

(** [get_position_coordinates(img_width, img_height, text_width,
    text_height, position)]; [//] is floor division, [Z.div]. *)
Definition get_position_coordinates
    (img_width img_height text_width text_height : Z) (position : string) : Z * Z :=
  let margin := 20 in
  if String.eqb position "top-left" then (margin, margin)
  else if String.eqb position "top-right" then
    (img_width - text_width - margin, margin)
  else if String.eqb position "bottom-left" then
    (margin, img_height - text_height - margin)
  else if String.eqb position "bottom-right" then
    (img_width - text_width - margin, img_height - text_height - margin)
  else if String.eqb position "center" then
    ((img_width - text_width) / 2, (img_height - text_height) / 2)
  else (margin, margin).

(** ** [os.path] (POSIX flavour), [fnmatch] and [glob.has_magic] *)

Module PosixPath.

Definition sep : ascii := "/"%char.
Definition extsep : ascii := "."%char.

(** [os.path.join(a, b)] *)
Definition join (a b : string) : string :=
  if PyStr.startswith sep b then b
  else if (String.eqb a "" || PyStr.endswith sep a)%bool then a +:+ b
  else a +:+ "/" +:+ b.

(** [os.path.split(p)]: the head is everything up to the last slash, with
    its trailing slashes removed unless it consists of slashes only. *)
Definition split (p : string) : string * string :=
  match PyStr.rsplit sep p with
  | Some (b, tail) =>
      let head := b +:+ "/" in
      (if PyStr.all_char sep head then head else PyStr.rstrip sep head, tail)
  | None => ("", p)
  end.

(** [os.path.basename(p)] *)
Definition basename (p : string) : string :=
  match PyStr.rsplit sep p with
  | Some (_, tail) => tail
  | None => p
  end.

(** [splitext] on a slash-free name: the extension starts at the last dot,
    leading dots of the name do not count. *)
Definition splitext_name (f : string) : string * string :=
  match PyStr.rsplit extsep f with
  | Some (b, a) =>
      if PyStr.all_char extsep b then (f, "") else (b, String extsep a)
  | None => (f, "")
  end.

(** [os.path.splitext(p)] *)
Definition splitext (p : string) : string * string :=
  match PyStr.rsplit sep p with
  | Some (d, f) =>
      let '(n, e) := splitext_name f in (d +:+ "/" +:+ n, e)
  | None => splitext_name p
  end.

(** [glob.has_magic(s)]: one of [*], [?], [[] occurs in [s]. *)
Definition has_magic (s : string) : bool :=
  PyStr.contains "*"%char s || PyStr.contains "?"%char s
  || PyStr.contains "["%char s.

(** [glob._ishidden(name)] *)
Definition ishidden (name : string) : bool := PyStr.startswith extsep name.

(** [fnmatch.fnmatchcase(name, pat)] for patterns made of literal
    characters, [*] and [?]; the patterns of the script have no bracket
    class. *)
Fixpoint fnmatch (pat name : string) : bool :=
  match pat with
  | EmptyString => match name with EmptyString => true | _ => false end
  | String c pat' =>
      if Ascii.eqb c "*" then
        (fix star (n : string) : bool :=
           fnmatch pat' n
           || match n with
              | EmptyString => false
              | String _ n' => star n'
              end) name
      else
        match name with
        | EmptyString => false
        | String d name' =>
            (Ascii.eqb c "?" || Ascii.eqb c d) && fnmatch pat' name'
        end
  end.

(** The components a path string names, from the root of the name space:
    empty components and [.] are skipped, [..] steps back.  There are no
    symbolic links, and relative paths start at the root. *)
Definition resolve_step (acc : list string) (comp : string) : list string :=
  if (String.eqb comp "" || String.eqb comp ".")%bool then acc
  else if String.eqb comp ".." then removelast acc
  else acc ++ [comp].

Definition resolve (p : string) : list string :=
  fold_left resolve_step (PyStr.split sep p) [].

End PosixPath.

(** ** [datetime] *)

Module DateTime.

Record datetime := mkDateTime {
  year : Z; month : Z; day : Z; hour : Z; minute : Z; second : Z
}.

Definition is_digit (c : ascii) : bool :=
  let n := nat_of_ascii c in (48 <=? n)%nat && (n <=? 57)%nat.

Definition digit_val (c : ascii) : Z := Z.of_nat (nat_of_ascii c) - 48.

Definition digit_char (d : Z) : ascii := ascii_of_nat (Z.to_nat (48 + d)).

(** [\s] of the regular expressions (ASCII). *)
Definition is_space (c : ascii) : bool :=
  let n := nat_of_ascii c in
  (n =? 32)%nat || ((9 <=? n)%nat && (n <=? 13)%nat).

Definition is_leap (y : Z) : bool :=
  ((y mod 4 =? 0) && negb (y mod 100 =? 0)) || (y mod 400 =? 0).

Definition days_in_month (y m : Z) : Z :=
  if m =? 2 then (if is_leap y then 29 else 28)
  else if (m =? 4) || (m =? 6) || (m =? 9) || (m =? 11) then 30
  else 31.

(** A parser consumes a prefix of the string and leaves the rest. *)
Definition parser (A : Type) := string -> option (A * string).

(** [%Y]: [\d\d\d\d] *)
Definition take_Y : parser Z := fun s =>
  match s with
  | String a (String b (String c (String d r)))=>
      if is_digit a && is_digit b && is_digit c && is_digit d
      then Some (1000 * digit_val a + 100 * digit_val b
                 + 10 * digit_val c + digit_val d, r)
      else None
  | _ => None
  end.

(** Two characters [a b] with [a] in [lo1..hi1] and [b] in [lo2..hi2]. *)
Definition two (lo1 hi1 lo2 hi2 : Z) : parser Z := fun s =>
  match s with
  | String a (String b r) =>
      if is_digit a && is_digit b
         && (lo1 <=? digit_val a) && (digit_val a <=? hi1)
         && (lo2 <=? digit_val b) && (digit_val b <=? hi2)
      then Some (10 * digit_val a + digit_val b, r)
      else None
  | _ => None
  end.

(** One digit in [lo..hi]. *)
Definition one (lo hi : Z) : parser Z := fun s =>
  match s with
  | String a r =>
      if is_digit a && (lo <=? digit_val a) && (digit_val a <=? hi)
      then Some (digit_val a, r)
      else None
  | _ => None
  end.

(** A blank followed by one digit in [1..9] (last alternative of [%d]). *)
Definition blank_one : parser Z := fun s =>
  match s with
  | String a r => if Ascii.eqb a " " then one 1 9 r else None
  | _ => None
  end.

(** Ordered alternation [p|q]. *)
Definition alt {A} (p q : parser A) : parser A := fun s =>
  match p s with
  | Some r => Some r
  | None => q s
  end.

(** [%m]: [1[0-2]|0[1-9]|[1-9]] *)
Definition take_m : parser Z := alt (two 1 1 0 2) (alt (two 0 0 1 9) (one 1 9)).
(** [%d]: [3[0-1]|[1-2]\d|0[1-9]|[1-9]| [1-9]] *)
Definition take_d : parser Z :=
  alt (two 3 3 0 1) (alt (two 1 2 0 9) (alt (two 0 0 1 9) (alt (one 1 9) blank_one))).
(** [%H]: [2[0-3]|[0-1]\d|\d] *)
Definition take_H : parser Z := alt (two 2 2 0 3) (alt (two 0 1 0 9) (one 0 9)).
(** [%M]: [[0-5]\d|\d] *)
Definition take_M : parser Z := alt (two 0 5 0 9) (one 0 9).
(** [%S]: [6[0-1]|[0-5]\d|\d] *)
Definition take_S : parser Z := alt (two 6 6 0 1) (alt (two 0 5 0 9) (one 0 9)).

(** A literal character of the format. *)
Definition lit (c : ascii) : parser unit := fun s =>
  match s with
  | String a r => if Ascii.eqb a c then Some (tt, r) else None
  | _ => None
  end.

(** A blank of the format: [\s+]. *)
Fixpoint skip_spaces (s : string) : string :=
  match s with
  | String a r => if is_space a then skip_spaces r else s
  | EmptyString => s
  end.

Definition spaces1 : parser unit := fun s =>
  match s with
  | String a r => if is_space a then Some (tt, skip_spaces r) else None
  | _ => None
  end.

(** Why [strptime] raised [ValueError]. *)
Inductive parse_error :=
  | NoMatch            (* time data ... does not match format *)
  | UnconvertedData (rest : string)
  | OutOfRange (what : string).

Definition bindp {A B} (p : option (A * string)) (k : A -> string -> option B)
  : option B :=
  match p with
  | Some (a, r) => k a r
  | None => None
  end.

(** The fields matched by the regular expression of
    ['%Y-%m-%d %H:%M:%S'], and what is left of the string. *)
Definition match_Ymd_HMS (s : string) : option (datetime * string) :=
  bindp (take_Y s) (fun y s =>
  bindp (lit "-" s) (fun _ s =>
  bindp (take_m s) (fun mo s =>
  bindp (lit "-" s) (fun _ s =>
  bindp (take_d s) (fun d s =>
  bindp (spaces1 s) (fun _ s =>
  bindp (take_H s) (fun h s =>
  bindp (lit ":" s) (fun _ s =>
  bindp (take_M s) (fun mi s =>
  bindp (lit ":" s) (fun _ s =>
  bindp (take_S s) (fun se s =>
  Some (mkDateTime y mo d h mi se, s)))))))))))).

(** [datetime.strptime(s, '%Y-%m-%d %H:%M:%S')]: the whole string has to
    match, and the fields have to make a date of the calendar with a
    second below 60. *)
Definition strptime_Ymd_HMS (s : string) : parse_error + datetime :=
  match match_Ymd_HMS s with
  | None => inl NoMatch
  | Some (dt, rest) =>
      if negb (String.eqb rest "") then inl (UnconvertedData rest)
      else if year dt <? 1 then inl (OutOfRange "year 0 is out of range")
      else if days_in_month (year dt) (month dt) <? day dt
      then inl (OutOfRange "day is out of range for month")
      else if 59 <? second dt then inl (OutOfRange "second must be in 0..59")
      else inr dt
  end.

Definition pad2 (n : Z) : string :=
  String (digit_char (n / 10)) (String (digit_char (n mod 10)) "").

Definition pad4 (n : Z) : string :=
  String (digit_char (n / 1000)) (String (digit_char (n / 100 mod 10))
    (String (digit_char (n / 10 mod 10)) (String (digit_char (n mod 10)) ""))).

(** [dt.strftime('%Y-%m-%d')], the year on four digits. *)
Definition strftime_Ymd (dt : datetime) : string :=
  pad4 (year dt) +:+ "-" +:+ pad2 (month dt) +:+ "-" +:+ pad2 (day dt).

(** The EXIF rendering of a date and time, [YYYY:MM:DD HH:MM:SS]. *)
Definition exif_format (dt : datetime) : string :=
  pad4 (year dt) +:+ ":" +:+ pad2 (month dt) +:+ ":" +:+ pad2 (day dt)
  +:+ " " +:+ pad2 (hour dt) +:+ ":" +:+ pad2 (minute dt) +:+ ":"
  +:+ pad2 (second dt).

(** The same written with dashes in the date, [YYYY-MM-DD HH:MM:SS]. *)
Definition iso_format (dt : datetime) : string :=
  pad4 (year dt) +:+ "-" +:+ pad2 (month dt) +:+ "-" +:+ pad2 (day dt)
  +:+ " " +:+ pad2 (hour dt) +:+ ":" +:+ pad2 (minute dt) +:+ ":"
  +:+ pad2 (second dt).

(** A date and time of the calendar. *)
Definition valid (dt : datetime) : Prop :=
  1 <= year dt <= 9999 /\ 1 <= month dt <= 12
  /\ 1 <= day dt <= days_in_month (year dt) (month dt)
  /\ 0 <= hour dt <= 23 /\ 0 <= minute dt <= 59 /\ 0 <= second dt <= 59.

End DateTime.

(** ** Exceptions *)

Inductive exn :=
  | FileNotFoundError (path : string)
  | IsADirectoryError (path : string)
  | NotADirectoryError (path : string)
  | FileExistsError (path : string)
  | UnidentifiedImageError (path : string)
  | AttributeError (msg : string)
  | TypeError (msg : string)
  | ValueError (msg : string)
  | OtherError (msg : string)     (* any other subclass of Exception *)
  | SystemExit (code : Z).

(** [isinstance(e, Exception)]: [SystemExit] derives from [BaseException]
    only. *)
Definition is_Exception (e : exn) : bool :=
  match e with
  | SystemExit _ => false
  | _ => true
  end.

(** [str(e)] *)
Definition exn_str (e : exn) : string :=
  match e with
  | FileNotFoundError p => "[Errno 2] No such file or directory: '" +:+ p +:+ "'"
  | IsADirectoryError p => "[Errno 21] Is a directory: '" +:+ p +:+ "'"
  | NotADirectoryError p => "[Errno 20] Not a directory: '" +:+ p +:+ "'"
  | FileExistsError p => "[Errno 17] File exists: '" +:+ p +:+ "'"
  | UnidentifiedImageError p => "cannot identify image file '" +:+ p +:+ "'"
  | AttributeError m | TypeError m | ValueError m | OtherError m => m
  | SystemExit c => PyStr.of_Z c
  end.

Definition strptime_error (s : string) (err : DateTime.parse_error) : exn :=
  match err with
  | DateTime.NoMatch =>
      ValueError ("time data '" +:+ s
                  +:+ "' does not match format '%Y-%m-%d %H:%M:%S'")
  | DateTime.UnconvertedData rest =>
      ValueError ("unconverted data remains: " +:+ rest)
  | DateTime.OutOfRange what => ValueError what
  end.

(** ** Images as Pillow presents them *)

(** A value of the EXIF dictionary. *)
Inductive exif_value :=
  | ExifStr (s : string)
  | ExifBytes (b : string)
  | ExifInt (n : Z).

(** What [img._getexif()] does on an opened image: formats without EXIF
    support have no such method and a damaged block makes it fail (an
    exception with the given message), otherwise it returns [None] or a
    dictionary (in iteration order, keys distinct). *)
Inductive getexif :=
  | GetexifRaises (msg : string)
  | GetexifNone
  | GetexifDict (items : list (Z * exif_value)).

Inductive font :=
  | TrueType (name : string) (size : Z)
  | DefaultFont.

(** One call of [draw.text(xy, text, font=font, fill=fill)]. *)
Record text_draw := mkTextDraw {
  td_xy : Z * Z; td_text : string; td_font : font; td_fill : string
}.

(** An image in memory: its raster is the decoded one with the texts drawn
    on it so far, oldest first. *)
Record image := mkImage {
  img_mode : string;
  img_width : Z;
  img_height : Z;
  img_exif : getexif;
  img_raster : string;
  img_text : list text_draw
}.

(** [img.convert('RGB')] *)
Definition convert_RGB (img : image) : image :=
  mkImage "RGB" (img_width img) (img_height img) (img_exif img)
          (img_raster img) (img_text img).

(** [draw.text(xy, text, font=font, fill=fill)] on [ImageDraw.Draw(img)]:
    the image is changed in place. *)
Definition draw_text (img : image) (xy : Z * Z) (text : string) (f : font)
    (fill : string) : image :=
  mkImage (img_mode img) (img_width img) (img_height img) (img_exif img)
          (img_raster img) (img_text img ++ [mkTextDraw xy text f fill]).

(** [ExifTags.TAGS.get(tag_id, tag_id)]: the name of the tag, or the
    number itself for a tag the table does not have.  The table is
    Pillow's; the excerpt has its only entry named [DateTime]. *)
Inductive tag := TagName (name : string) | TagId (id : Z).

Definition TAGS_get (tag_id : Z) : tag :=
  if tag_id =? 256 then TagName "ImageWidth"
  else if tag_id =? 257 then TagName "ImageLength"
  else if tag_id =? 271 then TagName "Make"
  else if tag_id =? 272 then TagName "Model"
  else if tag_id =? 274 then TagName "Orientation"
  else if tag_id =? 305 then TagName "Software"
  else if tag_id =? 306 then TagName "DateTime"
  else if tag_id =? 34665 then TagName "ExifOffset"
  else if tag_id =? 36867 then TagName "DateTimeOriginal"
  else if tag_id =? 36868 then TagName "DateTimeDigitized"
  else TagId tag_id.

(** [tag == 'DateTime'] *)
Definition tag_is (t : tag) (name : string) : bool :=
  match t with
  | TagName n => String.eqb n name
  | TagId _ => false
  end.

(** ** The world: file system, console and I/O log *)

Inductive node :=
  | File (data : string)
  | Dir.

Inductive io_event :=
  | EvMakedirs (path : string)
  | EvGlob (pathname : string)
  | EvOpen (path : string)
  | EvSave (path : string).

(** The file system maps the component list of a path to what is there;
    the root [[]] is a directory. *)
Record world := mkWorld {
  w_fs : gmap (list string) node;
  w_console : list string;
  w_log : list io_event
}.

(** What the script takes from its platform: the codecs of Pillow
    ([decode] is [None] on bytes [Image.open] cannot identify, [encode] is
    [None] when [save] refuses the extension or the mode before it creates
    the file), the fonts that are installed, the metrics of a text
    ([None] when [textbbox] raises), and what [glob] finds when the
    directory part of its pattern has wildcards itself. *)
Class Platform := {
  decode : string -> option image;
  encode : string -> image -> option string;
  truetype_ok : string -> Z -> bool;
  textbbox : font -> string -> option (Z * Z * Z * Z);
  glob_magic_dirname : gmap (list string) node -> string -> list string
}.

(** ** The monad of the script: state and exceptions *)

Inductive result (A : Type) :=
  | Ok (a : A)
  | Raise (e : exn).
Arguments Ok {A} a.
Arguments Raise {A} e.

Definition M (A : Type) : Type := world -> result A * world.

Definition ret {A} (a : A) : M A := fun w => (Ok a, w).

Definition raise {A} (e : exn) : M A := fun w => (Raise e, w).

Definition lift {A} (r : result A) : M A := fun w => (r, w).

Definition bind {A B} (m : M A) (k : A -> M B) : M B := fun w =>
  match m w with
  | (Ok a, w') => k a w'
  | (Raise e, w') => (Raise e, w')
  end.

Notation "'let!' x ':=' m 'in' k" := (bind m (fun x => k))
  (at level 10, x name, m at level 100, k at level 200).
Notation "'do!' m 'in' k" := (bind m (fun _ => k))
  (at level 10, m at level 100, k at level 200).

(** [try: body except Exception as e: handler(e)] *)
Definition try_except {A} (body : M A) (handler : exn -> M A) : M A := fun w =>
  match body w with
  | (Ok a, w') => (Ok a, w')
  | (Raise e, w') => if is_Exception e then handler e w' else (Raise e, w')
  end.

Definition log (ev : io_event) (w : world) : world :=
  mkWorld (w_fs w) (w_console w) (w_log w ++ [ev]).

Definition set_fs (fs : gmap (list string) node) (w : world) : world :=
  mkWorld fs (w_console w) (w_log w).

Definition put_line (line : string) (w : world) : world :=
  mkWorld (w_fs w) (w_console w ++ [line]) (w_log w).

(** [print(line)] *)
Definition print (line : string) : M unit := fun w => (Ok tt, put_line line w).

(** [for x in xs: acc = body(x, acc)] *)
Fixpoint for_each {A B} (xs : list A) (body : A -> B -> M B) (acc : B) : M B :=
  match xs with
  | [] => ret acc
  | x :: xs' => let! acc' := body x acc in for_each xs' body acc'
  end.

(** ** The file system *)

(** A name of a directory entry: not empty, no slash, not [.] or [..]. *)
Definition valid_name (n : string) : bool :=
  negb (String.eqb n "") && negb (PyStr.contains PosixPath.sep n)
  && negb (String.eqb n ".") && negb (String.eqb n "..").

(** Walking down from the directory [pre], which holds [cur], along the
    components [rest]: every component but the last has to be a
    directory. *)
Fixpoint walk (fs : gmap (list string) node) (cur : option node)
    (pre rest : list string) : option node :=
  match rest with
  | [] => cur
  | c :: rest' =>
      match cur with
      | Some Dir => walk fs (fs !! (pre ++ [c])) (pre ++ [c]) rest'
      | _ => None
      end
  end.

Definition lookup_path (fs : gmap (list string) node) (p : list string)
  : option node := walk fs (Some Dir) [] p.

(** What a path string names: nothing for the empty string. *)
Definition stat (fs : gmap (list string) node) (path : string) : option node :=
  if String.eqb path "" then None else lookup_path fs (PosixPath.resolve path).

(** The name [k] has in the directory [d], when [k] is an entry of [d]. *)
Fixpoint child_name (d k : list string) : option string :=
  match d, k with
  | [], [n] => if valid_name n then Some n else None
  | x :: d', y :: k' => if String.eqb x y then child_name d' k' else None
  | _, _ => None
  end.

(** The names in directory [d], in the order of the directory. *)
Definition children (fs : gmap (list string) node) (d : list string)
  : list string :=
  omap (fun kv => child_name d (fst kv)) (map_to_list fs).

(** [glob._listdir(dirname)]: the names in the directory, nothing when it
    cannot be listed; the empty name is the current directory. *)
Definition listdir (fs : gmap (list string) node) (dirname : string)
  : list string :=
  match stat fs (if String.eqb dirname "" then "." else dirname) with
  | Some Dir => children fs (PosixPath.resolve dirname)
  | _ => []
  end.

(** [glob._glob1(dirname, pattern)] *)
Definition glob1 (fs : gmap (list string) node) (dirname pattern : string)
  : list string :=
  let names := listdir fs dirname in
  let names :=
    if PosixPath.ishidden pattern then names
    else List.filter (fun x => negb (PosixPath.ishidden x)) names in
  List.filter (PosixPath.fnmatch pattern) names.

(** The directories [pre/c1], [pre/c1/c2], ... are made in turn; a file
    in the way stops the walk, and what is left of the path is returned. *)
Fixpoint mkdirs (pre rest : list string) (fs : gmap (list string) node)
  : gmap (list string) node * option (list string) :=
  match rest with
  | [] => (fs, None)
  | c :: rest' =>
      let p := pre ++ [c] in
      match fs !! p with
      | Some Dir => mkdirs p rest' fs
      | Some (File _) => (fs, Some rest')
      | None => mkdirs p rest' (<[p := Dir]> fs)
      end
  end.

(** Where [open(path, 'wb')] creates or truncates a file: in an existing
    directory, not over a directory. *)
Definition save_target (fs : gmap (list string) node) (path : string)
  : exn + list string :=
  let p := PosixPath.resolve path in
  match stat fs path with
  | Some Dir => inl (IsADirectoryError path)
  | Some (File _) => inr p
  | None =>
      if String.eqb path "" then inl (FileNotFoundError path)
      else match lookup_path fs (removelast p) with
           | Some Dir => inr p
           | Some (File _) => inl (NotADirectoryError path)
           | None => inl (FileNotFoundError path)
           end
  end.

Definition is_dir (fs : gmap (list string) node) (path : string) : bool :=
  match stat fs path with Some Dir => true | _ => false end.

Definition is_file (fs : gmap (list string) node) (path : string) : bool :=
  match stat fs path with Some (File _) => true | _ => false end.

(** ** Operating system and Pillow calls *)

Section Script.

Context {P : Platform}.

(** [os.path.isdir(path)] *)
Definition isdir (path : string) : M bool := fun w =>
  (Ok (is_dir (w_fs w) path), w).

(** [os.path.isfile(path)] *)
Definition isfile (path : string) : M bool := fun w =>
  (Ok (is_file (w_fs w) path), w).

(** The paths [glob.glob(pathname)] returns. *)
Definition glob_paths (fs : gmap (list string) node) (pathname : string)
  : list string :=
  let '(dirname, basename) := PosixPath.split pathname in
  if negb (PosixPath.has_magic pathname) then
    if negb (String.eqb basename "")
    then match stat fs pathname with Some _ => [pathname] | None => [] end
    else match stat fs dirname with Some Dir => [pathname] | _ => [] end
  else if PosixPath.has_magic dirname then glob_magic_dirname fs pathname
  else map (PosixPath.join dirname) (glob1 fs dirname basename).

(** [glob.glob(pathname, recursive=False)] *)
Definition glob (pathname : string) : M (list string) := fun w =>
  (Ok (glob_paths (w_fs w) pathname), log (EvGlob pathname) w).

(** [os.makedirs(path, exist_ok=True)] *)
Definition makedirs (path : string) : M unit := fun w =>
  let w' := log (EvMakedirs path) w in
  if String.eqb path "" then (Raise (FileNotFoundError path), w')
  else
    match mkdirs [] (PosixPath.resolve path) (w_fs w) with
    | (fs', None) => (Ok tt, set_fs fs' w')
    | (fs', Some []) => (Raise (FileExistsError path), set_fs fs' w')
    | (fs', Some _) => (Raise (NotADirectoryError path), set_fs fs' w')
    end.

(** What [Image.open(path)] returns or raises. *)
Definition open_outcome (fs : gmap (list string) node) (path : string)
  : result image :=
  match stat fs path with
  | None => Raise (FileNotFoundError path)
  | Some Dir => Raise (IsADirectoryError path)
  | Some (File data) =>
      match decode data with
      | Some img => Ok img
      | None => Raise (UnidentifiedImageError path)
      end
  end.

(** [Image.open(path)] *)
Definition Image_open (path : string) : M image := fun w =>
  (open_outcome (w_fs w) path, log (EvOpen path) w).

(** [img.save(path, quality=95)]: the format comes from the extension,
    then the file is written. *)
Definition Image_save (img : image) (path : string) : M unit := fun w =>
  let w' := log (EvSave path) w in
  match encode path img with
  | None => (Raise (ValueError ("cannot write " +:+ path)), w')
  | Some data =>
      match save_target (w_fs w) path with
      | inl e => (Raise e, w')
      | inr p => (Ok tt, set_fs (<[p := File data]> (w_fs w)) w')
      end
  end.

(** The font of the watermark: [arial.ttf], else [DejaVuSans.ttf], else
    the built-in font. *)
Definition load_font (font_size : Z) : font :=
  if truetype_ok "arial.ttf" font_size then TrueType "arial.ttf" font_size
  else if truetype_ok "DejaVuSans.ttf" font_size
  then TrueType "DejaVuSans.ttf" font_size
  else DefaultFont.

(** [draw.textbbox((0, 0), text, font=font)] *)
Definition draw_textbbox (f : font) (text : string) : M (Z * Z * Z * Z) :=
  match textbbox f text with
  | Some bbox => ret bbox
  | None => raise (OtherError "textbbox")
  end.

(** ** 4.1 EXIF date extraction *)

(** [value.replace(':', '-', 2)]: only [str] has this method with these
    arguments. *)
Definition value_replace (value : exif_value) : result string :=
  match value with
  | ExifStr s => Ok (PyStr.replace ":" "-" 2 s)
  | ExifBytes _ => Raise (TypeError "a bytes-like object is required, not 'str'")
  | ExifInt _ => Raise (AttributeError "'int' object has no attribute 'replace'")
  end.

(** The three lines under [if tag == 'DateTime']. *)
Definition parse_datetime_value (value : exif_value) : result string :=
  match value_replace value with
  | Raise e => Raise e
  | Ok dt_str =>
      match DateTime.strptime_Ymd_HMS dt_str with
      | inl err => Raise (strptime_error dt_str err)
      | inr dt_obj => Ok (DateTime.strftime_Ymd dt_obj)
      end
  end.

(** The loop over [exif_data.items()]: the first tag named [DateTime]
    decides. *)
Fixpoint scan_exif (items : list (Z * exif_value)) : result (option string) :=
  match items with
  | [] => Ok None
  | (tag_id, value) :: rest =>
      let tag := TAGS_get tag_id in
      if tag_is tag "DateTime" then
        match parse_datetime_value value with
        | Raise e => Raise e
        | Ok date => Ok (Some date)
        end
      else scan_exif rest
  end.

(** The body of [try] once the image is open. *)
Definition read_exif_date (img : image) : result (option string) :=
  match img_exif img with
  | GetexifRaises msg => Raise (OtherError msg)
  | GetexifNone => Ok None
  | GetexifDict [] => Ok None
  | GetexifDict items => scan_exif items
  end.

(** [f"Warning: Could not read EXIF data from {image_path}: {e}"] *)
Definition warning_line (image_path : string) (e : exn) : string :=
  "Warning: Could not read EXIF data from " +:+ image_path
  +:+ ": " +:+ exn_str e.

(** [get_exif_datetime(image_path)] *)
Definition get_exif_datetime (image_path : string) : M (option string) :=
  try_except
    (let! img := Image_open image_path in
     lift (read_exif_date img))
    (fun e =>
       do! print (warning_line image_path e) in
       ret None).

(** ** 4.3 Watermark renderer *)

(** [if not watermark_text: watermark_text = 'No-Date'] *)
Definition text_or_fallback (watermark_text : option string) : string :=
  match watermark_text with
  | None => "No-Date"
  | Some t => if String.eqb t "" then "No-Date" else t
  end.

(** [f"Success: {image_path} -> {output_path}"] *)
Definition success_line (image_path output_path : string) : string :=
  "Success: " +:+ image_path +:+ " -> " +:+ output_path.

(** [f"Error processing {image_path}: {e}"] *)
Definition error_line (image_path : string) (e : exn) : string :=
  "Error processing " +:+ image_path +:+ ": " +:+ exn_str e.

(** [add_watermark(image_path, output_path, font_size, color, position)] *)
Definition add_watermark (image_path output_path : string) (font_size : Z)
    (color position : string) : M unit :=
  try_except
    (let! watermark_text := get_exif_datetime image_path in
     let watermark_text := text_or_fallback watermark_text in
     let! img := Image_open image_path in
     let img := if negb (String.eqb (img_mode img) "RGB")
                then convert_RGB img else img in
     let font := load_font font_size in
     let! bbox := draw_textbbox font watermark_text in
     let '(x0, y0, x1, y1) := bbox in
     let text_width := x1 - x0 in
     let text_height := y1 - y0 in
     let '(x, y) := get_position_coordinates (img_width img) (img_height img)
                      text_width text_height position in
     let shadow_color := if String.eqb color "white" then "black" else "white" in
     let img := draw_text img (x + 2, y + 2) watermark_text font shadow_color in
     let img := draw_text img (x, y) watermark_text font color in
     do! Image_save img output_path in
     print (success_line image_path output_path))
    (fun e => print (error_line image_path e)).

(** ** 4.4 Directory batch driver *)

Definition image_extensions : list string :=
  ["*.jpg"; "*.jpeg"; "*.png"; "*.bmp"; "*.tiff"; "*.webp"].

(** [name, ext = os.path.splitext(filename)] and
    [f"{name}_watermarked{ext}"] *)
Definition output_filename (filename : string) : string :=
  let '(name, ext) := PosixPath.splitext filename in
  name +:+ "_watermarked" +:+ ext.

(** The body of the inner loop, for one path found by [glob]. *)
Definition process_file (output_dir : string) (font_size : Z)
    (color position : string) (image_path : string) (processed_count : Z) : M Z :=
  let! is_file := isfile image_path in
  if is_file then
    let filename := PosixPath.basename image_path in
    let output_path := PosixPath.join output_dir (output_filename filename) in
    do! add_watermark image_path output_path font_size color position in
    ret (processed_count + 1)
  else ret processed_count.

(** The body of the outer loop, for one pattern. *)
Definition process_pattern (input_dir output_dir : string) (font_size : Z)
    (color position : string) (ext : string) (processed_count : Z) : M Z :=
  let pattern := PosixPath.join input_dir ext in
  let! paths := glob pattern in
  for_each paths (process_file output_dir font_size color position)
           processed_count.

Definition newline : string := String (ascii_of_nat 10) "".

(** [os.path.join(input_dir, f"{os.path.basename(input_dir)}_watermark")] *)
Definition output_dir_of (input_dir : string) : string :=
  PosixPath.join input_dir (PosixPath.basename input_dir +:+ "_watermark").

(** The last line the driver prints. *)
Definition report (processed_count : Z) (output_dir : string) : string :=
  if processed_count =? 0
  then "No image files found in the specified directory."
  else newline +:+ "Processed " +:+ PyStr.of_Z processed_count
       +:+ " images. Output saved to: " +:+ output_dir.

(** [process_directory(input_dir, font_size, color, position)] *)
Definition process_directory (input_dir : string) (font_size : Z)
    (color position : string) : M unit :=
  let output_dir := output_dir_of input_dir in
  do! makedirs output_dir in
  let! processed_count :=
    for_each image_extensions
      (process_pattern input_dir output_dir font_size color position) 0 in
  print (report processed_count output_dir).

(** ** Command line *)

(** The namespace [argparse] returns. *)
Record args := mkArgs {
  input_dir : string; font_size : Z; color : string; position : string
}.

Definition dashes : string := "--------------------------------------------------".

(** [main()], after [parser.parse_args()]; [sys.exit(1)] raises
    [SystemExit(1)]. *)
Definition main (a : args) : M unit :=
  let! is_dir := isdir (input_dir a) in
  do! (if negb is_dir then
         do! print ("Error: Directory '" +:+ input_dir a +:+ "' does not exist.") in
         raise (SystemExit 1)
       else ret tt) in
  do! print ("Processing images in: " +:+ input_dir a) in
  do! print ("Settings: Font Size=" +:+ PyStr.of_Z (font_size a)
             +:+ ", Color=" +:+ color a +:+ ", Position=" +:+ position a) in
  do! print dashes in
  process_directory (input_dir a) (font_size a) (color a) (position a).

(** The exit status of the process: 0 when [main] returns, the code of
    [SystemExit], 1 for an exception nobody caught. *)
Definition exit_status (r : result unit) : Z :=
  match r with
  | Ok _ => 0
  | Raise (SystemExit code) => code
  | Raise _ => 1
  end.

(** ** What the script does, as functions of the file system

    The definitions below say what the calls above compute, without the
    monad; the lemmas of the second part relate the two. *)

(** What the body of [try] in [get_exif_datetime] returns or raises. *)
Definition exif_outcome (fs : gmap (list string) node) (path : string)
  : result (option string) :=
  match open_outcome fs path with
  | Ok img => read_exif_date img
  | Raise e => Raise e
  end.

(** The watermark text [add_watermark] uses for the image at [path]. *)
Definition watermark_text_of (fs : gmap (list string) node) (path : string)
  : string :=
  text_or_fallback (match exif_outcome fs path with
                    | Ok r => r
                    | Raise _ => None
                    end).

(** The image [add_watermark] hands to [save]: converted, with the shadow
    and the text drawn. *)
Definition watermark_image (img : image) (text : string) (font_size : Z)
    (color position : string) : result image :=
  let img := if negb (String.eqb (img_mode img) "RGB")
             then convert_RGB img else img in
  let font := load_font font_size in
  match textbbox font text with
  | None => Raise (OtherError "textbbox")
  | Some (x0, y0, x1, y1) =>
      let '(x, y) := get_position_coordinates (img_width img) (img_height img)
                       (x1 - x0) (y1 - y0) position in
      let shadow_color := if String.eqb color "white" then "black" else "white" in
      Ok (draw_text (draw_text img (x + 2, y + 2) text font shadow_color)
                    (x, y) text font color)
  end.

(** What [add_watermark] writes and where, or the exception its [except]
    clause reports. *)
Definition render_outcome (fs : gmap (list string) node)
    (image_path output_path : string) (font_size : Z) (color position : string)
  : result (list string * string) :=
  match open_outcome fs image_path with
  | Raise e => Raise e
  | Ok img =>
      match watermark_image img (watermark_text_of fs image_path)
                            font_size color position with
      | Raise e => Raise e
      | Ok img' =>
          match encode output_path img' with
          | None => Raise (ValueError ("cannot write " +:+ output_path))
          | Some data =>
              match save_target fs output_path with
              | inl e => Raise e
              | inr p => Ok (p, data)
              end
          end
      end
  end.

(** The lines [add_watermark] prints: the warning of the extraction, if
    any, then success or error. *)
Definition watermark_lines (fs : gmap (list string) node)
    (path out : string) (font_size : Z) (color position : string) : list string :=
  match exif_outcome fs path with
  | Ok _ => []
  | Raise e => [warning_line path e]
  end
  ++ match render_outcome fs path out font_size color position with
     | Ok _ => [success_line path out]
     | Raise e => [error_line path e]
     end.

(** The events [add_watermark] adds to the log: the image is opened twice,
    by the extraction and by the renderer, and [save] is reached when the
    image opens and its text can be measured. *)
Definition watermark_events (fs : gmap (list string) node)
    (path out : string) (font_size : Z) : list io_event :=
  [EvOpen path; EvOpen path]
  ++ match open_outcome fs path with
     | Ok _ =>
         match textbbox (load_font font_size) (watermark_text_of fs path) with
         | Some _ => [EvSave out]
         | None => []
         end
     | Raise _ => []
     end.

(** The bytes [add_watermark] hands to the file system, when it gets as
    far as that. *)
Definition rendered (fs : gmap (list string) node)
    (image_path output_path : string) (font_size : Z) (color position : string)
  : option string :=
  match open_outcome fs image_path with
  | Raise _ => None
  | Ok img =>
      match watermark_image img (watermark_text_of fs image_path)
                            font_size color position with
      | Raise _ => None
      | Ok img' => encode output_path img'
      end
  end.

(** The directory part of the patterns of the driver, as [glob] splits
    them off: the input directory without its trailing slashes. *)
Definition dirname_of (input_dir : string) : string :=
  if String.eqb input_dir "" then ""
  else
    let head := if PyStr.endswith PosixPath.sep input_dir then input_dir
                else input_dir +:+ "/" in
    if PyStr.all_char PosixPath.sep head then head
    else PyStr.rstrip PosixPath.sep head.

(** A path that names an entry of the input directory. *)
Definition input_like (input_dir path : string) : Prop :=
  path <> ""
  /\ exists n, PosixPath.resolve path = PosixPath.resolve input_dir ++ [n].

(** What the patterns of the driver have in common: no slash, a
    wildcard, no leading dot. *)
Definition driver_pattern (pat : string) : Prop :=
  PyStr.contains PosixPath.sep pat = false
  /\ PosixPath.has_magic pat = true
  /\ PosixPath.ishidden pat = false.

(** A name the driver picks up: not hidden, with one of the extensions. *)
Definition qualifying (name : string) : bool :=
  negb (PosixPath.ishidden name)
  && existsb (fun pat => PosixPath.fnmatch pat name) image_extensions.

(** The paths [glob] returns to the driver, pattern after pattern, and
    the files among them. *)
Definition globbed (fs : gmap (list string) node) (input_dir : string)
  : list string :=
  flat_map (fun ext => glob_paths fs (PosixPath.join input_dir ext))
           image_extensions.

Definition enumerated (fs : gmap (list string) node) (input_dir : string)
  : list string :=
  flat_map (fun ext => List.filter (is_file fs)
                         (glob_paths fs (PosixPath.join input_dir ext)))
           image_extensions.

(** Where the driver writes the watermarked copy of [image_path]. *)
Definition output_path_of (input_dir image_path : string) : string :=
  PosixPath.join (output_dir_of input_dir)
                 (output_filename (PosixPath.basename image_path)).

(** What the driver writes for a path [glob] returned, and under which
    key of the file system. *)
Definition writes (fs : gmap (list string) node) (input_dir : string)
    (font_size : Z) (color position : string) (image_path : string)
  : option (list string * string) :=
  if is_file fs image_path then
    match render_outcome fs image_path (output_path_of input_dir image_path)
                         font_size color position with
    | Ok kd => Some kd
    | Raise _ => None
    end
  else None.

(** [fs'] is [fs] with the outputs of the paths [done] written over it. *)
Definition overlaid (fs : gmap (list string) node) (input_dir : string)
    (font_size : Z) (color position : string) (done : list string)
    (fs' : gmap (list string) node) : Prop :=
  forall k,
    (fs' !! k = fs !! k
     /\ forall p data, p ∈ done ->
           writes fs input_dir font_size color position p <> Some (k, data))
    \/ (exists p data,
          p ∈ done
          /\ writes fs input_dir font_size color position p = Some (k, data)
          /\ fs' !! k = Some (File data)).

(** The file system once [makedirs] is through, when no file is in the
    way: the output directory is made if it is not there. *)
Definition with_output_dir (input_dir : string)
    (fs : gmap (list string) node) : gmap (list string) node :=
  match fs !! PosixPath.resolve (output_dir_of input_dir) with
  | None => <[PosixPath.resolve (output_dir_of input_dir) := Dir]> fs
  | Some _ => fs
  end.

(** The run on [fs] writes [data] under the key [k] for the input [p]:
    [p] is one of the files found, its watermarked copy can be made, and
    no directory has the name of the output. *)
Definition produces (fs : gmap (list string) node) (input_dir : string)
    (font_size : Z) (color position : string)
    (p : string) (k : list string) (data : string) : Prop :=
  p ∈ enumerated fs input_dir
  /\ rendered fs p (output_path_of input_dir p) font_size color position
     = Some data
  /\ k = PosixPath.resolve (output_path_of input_dir p)
  /\ fs !! k <> Some Dir.

(** [fs'] is what a run on [fs] leaves: the output directory, the outputs,
    and everything else as it was. *)
Definition run_result (fs : gmap (list string) node) (input_dir : string)
    (font_size : Z) (color position : string)
    (fs' : gmap (list string) node) : Prop :=
  fs' !! PosixPath.resolve (output_dir_of input_dir) = Some Dir
  /\ forall k,
       k <> PosixPath.resolve (output_dir_of input_dir) ->
       (fs' !! k = fs !! k
        /\ forall p data,
              ~ produces fs input_dir font_size color position p k data)
       \/ (exists p data,
             produces fs input_dir font_size color position p k data
             /\ fs' !! k = Some (File data)).

End Script.

(** ** A small platform and a small directory, to run the script on *)

Module Demo.

(** A toy codec: the bytes [JPEG:<date>] are a 640x480 RGB picture whose
    EXIF block has a camera make and the [DateTime] tag [<date>]; [PNG] is
    a picture with an alpha channel and no EXIF data; [BMP] is a picture of
    a format without [_getexif]; nothing else is a picture. *)
Definition toy_decode (s : string) : option image :=
  if String.prefix "JPEG:" s then
    Some (mkImage "RGB" 640 480
            (GetexifDict [(271, ExifStr "Cam");
                          (306, ExifStr (substring 5 (String.length s - 5) s))])
            s [])
  else if String.eqb s "PNG" then Some (mkImage "RGBA" 100 50 GetexifNone s [])
  else if String.eqb s "BMP" then
    Some (mkImage "RGB" 30 20 (GetexifRaises "_getexif") s [])
  else None.

(** The encoded bytes are the raster followed by the texts drawn on it. *)
Definition toy_encode (path : string) (img : image) : option string :=
  Some (img_raster img
        +:+ String.concat "" (map (fun t => "|" +:+ td_text t) (img_text img))).

Definition toy : Platform := {|
  decode := toy_decode;
  encode := toy_encode;
  truetype_ok := fun _ _ => false;
  textbbox := fun _ text => Some (0, 0, 10 * Z.of_nat (String.length text), 11);
  glob_magic_dirname := fun _ _ => []
|}.

Definition world_of (fs : list (list string * node)) : world :=
  mkWorld (list_to_map fs) [] [].

(** Three pictures and two other files. *)
Definition photos : world :=
  world_of [ (["photos"], Dir);
             (["photos"; "a.jpg"], File "JPEG:2023:05:17 10:30:00");
             (["photos"; "b.png"], File "PNG");
             (["photos"; "c.bmp"], File "BMP");
             (["photos"; "notes.txt"], File "hello");
             (["photos"; "data.csv"], File "1,2") ].

(** No picture at all. *)
Definition papers : world :=
  world_of [ (["papers"], Dir);
             (["papers"; "notes.txt"], File "hello") ].

(** One file with the extension of a picture that is none. *)
Definition broken : world :=
  world_of [ (["broken"], Dir);
             (["broken"; "bad.jpg"], File "garbage") ].


End Demo.

(** * Properties *)

(** ** Position calculator *)

(** C1: the position calculator returns the documented coordinates with a
    margin of 20 pixels: (20, 20) for top-left, (W - tw - 20, 20) for
    top-right, (20, H - th - 20) for bottom-left,
    (W - tw - 20, H - th - 20) for bottom-right,
    ((W - tw) // 2, (H - th) // 2) for center, and (20, 20) for every
    keyword that is none of these five. *)
Theorem get_position_coordinates_spec (W H tw th : Z) :
  get_position_coordinates W H tw th "top-left" = (20, 20)
  /\ get_position_coordinates W H tw th "top-right" = (W - tw - 20, 20)
  /\ get_position_coordinates W H tw th "bottom-left" = (20, H - th - 20)
  /\ get_position_coordinates W H tw th "bottom-right"
     = (W - tw - 20, H - th - 20)
  /\ get_position_coordinates W H tw th "center"
     = ((W - tw) / 2, (H - th) / 2)
  /\ forall position : string,
       position <> "top-left" -> position <> "top-right" ->
       position <> "bottom-left" -> position <> "bottom-right" ->
       position <> "center" ->
       get_position_coordinates W H tw th position = (20, 20).
Proof.
  repeat split; try reflexivity.
  intros position H1 H2 H3 H4 H5.
  unfold get_position_coordinates.
  apply String.eqb_neq in H1, H2, H3, H4, H5.
  now rewrite H1, H2, H3, H4, H5.
Qed.

Lemma get_position_coordinates_spec_witness :
  get_position_coordinates 640 480 70 11 "middle" = (20, 20).
Proof.
  apply (get_position_coordinates_spec 640 480 70 11); discriminate.
Defined.

(** The claim that the x coordinate is negative whenever the text and the
    margin are wider than the image fails for the keywords anchored at the
    left edge: a 5 pixel text on a 10 pixel image at top-left is put at
    x = 20. *)
Lemma get_position_coordinates_left_not_negative :
  ~ (forall (W H tw th : Z) (position : string),
       tw + 20 > W -> fst (get_position_coordinates W H tw th position) < 0).
Proof.
  intros Hc. specialize (Hc 10 10 5 5 "top-left").
  simpl in Hc. lia.
Qed.

(** C10 (amended): the position calculator is total and does not clamp.
    For the keywords anchored at the right edge (top-right, bottom-right)
    x is negative exactly when text_width + 20 exceeds img_width; for the
    keywords anchored at the bottom edge (bottom-left, bottom-right) y is
    negative exactly when text_height + 20 exceeds img_height; for center
    a coordinate is negative exactly when the text is larger than the
    image in that direction; for every other keyword the result is
    (20, 20) whatever the sizes. *)
Theorem get_position_coordinates_unclamped (W H tw th : Z) (position : string) :
  (exists x y, get_position_coordinates W H tw th position = (x, y))
  /\ (position = "top-right" \/ position = "bottom-right" ->
      (fst (get_position_coordinates W H tw th position) < 0 <-> tw + 20 > W))
  /\ (position = "bottom-left" \/ position = "bottom-right" ->
      (snd (get_position_coordinates W H tw th position) < 0 <-> th + 20 > H))
  /\ (position = "center" ->
      (fst (get_position_coordinates W H tw th position) < 0 <-> tw > W)
      /\ (snd (get_position_coordinates W H tw th position) < 0 <-> th > H))
  /\ (position <> "top-right" -> position <> "bottom-left" ->
      position <> "bottom-right" -> position <> "center" ->
      get_position_coordinates W H tw th position = (20, 20)).
Proof.
  split; [destruct (get_position_coordinates W H tw th position); eauto |].
  split; [intros [-> | ->]; simpl; lia |].
  split; [intros [-> | ->]; simpl; lia |].
  split.
  - intros ->. cbn [get_position_coordinates String.eqb Ascii.eqb Bool.eqb fst snd].
    split.
    + pose proof (Z.div_lt_upper_bound (W - tw) 2 0).
      pose proof (Z.div_le_lower_bound (W - tw) 2 0). lia.
    + pose proof (Z.div_lt_upper_bound (H - th) 2 0).
      pose proof (Z.div_le_lower_bound (H - th) 2 0). lia.
  - intros H2 H3 H4 H5. unfold get_position_coordinates.
    apply String.eqb_neq in H2, H3, H4, H5.
    rewrite H2, H3, H4, H5. now destruct (String.eqb position "top-left").
Qed.

Lemma get_position_coordinates_unclamped_witness :
  fst (get_position_coordinates 10 10 5 5 "top-right") < 0 <-> 5 + 20 > 10.
Proof.
  apply (get_position_coordinates_unclamped 10 10 5 5 "top-right"). now left.
Defined.

(** ** The script at work *)

Example main_photos_console :
  w_console (snd (main (P := Demo.toy)
                    (mkArgs "photos" 36 "white" "bottom-right") Demo.photos))
  = [ "Processing images in: photos";
      "Settings: Font Size=36, Color=white, Position=bottom-right";
      dashes;
      "Success: photos/a.jpg -> photos/photos_watermark/a_watermarked.jpg";
      "Success: photos/b.png -> photos/photos_watermark/b_watermarked.png";
      "Warning: Could not read EXIF data from photos/c.bmp: _getexif";
      "Success: photos/c.bmp -> photos/photos_watermark/c_watermarked.bmp";
      newline +:+ "Processed 3 images. Output saved to: photos/photos_watermark" ].
Proof. vm_compute. reflexivity. Qed.

Example main_photos_log :
  w_log (snd (main (P := Demo.toy)
                (mkArgs "photos/" 36 "white" "bottom-right") Demo.photos))
  = [ EvMakedirs "photos/_watermark";
      EvGlob "photos/*.jpg";
      EvOpen "photos/a.jpg"; EvOpen "photos/a.jpg";
      EvSave "photos/_watermark/a_watermarked.jpg";
      EvGlob "photos/*.jpeg";
      EvGlob "photos/*.png";
      EvOpen "photos/b.png"; EvOpen "photos/b.png";
      EvSave "photos/_watermark/b_watermarked.png";
      EvGlob "photos/*.bmp";
      EvOpen "photos/c.bmp"; EvOpen "photos/c.bmp";
      EvSave "photos/_watermark/c_watermarked.bmp";
      EvGlob "photos/*.tiff";
      EvGlob "photos/*.webp" ].
Proof. vm_compute. reflexivity. Qed.

Example main_papers :
  main (P := Demo.toy) (mkArgs "papers" 36 "white" "bottom-right") Demo.papers
  = (Ok tt,
     mkWorld (<[["papers"; "papers_watermark"] := Dir]> (w_fs Demo.papers))
       [ "Processing images in: papers";
         "Settings: Font Size=36, Color=white, Position=bottom-right";
         dashes;
         "No image files found in the specified directory." ]
       [ EvMakedirs "papers/papers_watermark";
         EvGlob "papers/*.jpg"; EvGlob "papers/*.jpeg"; EvGlob "papers/*.png";
         EvGlob "papers/*.bmp"; EvGlob "papers/*.tiff"; EvGlob "papers/*.webp" ]).
Proof. vm_compute. reflexivity. Qed.

Example main_broken_console :
  w_console (snd (main (P := Demo.toy)
                    (mkArgs "broken" 36 "white" "bottom-right") Demo.broken))
  = [ "Processing images in: broken";
      "Settings: Font Size=36, Color=white, Position=bottom-right";
      dashes;
      "Warning: Could not read EXIF data from broken/bad.jpg: cannot identify image file 'broken/bad.jpg'";
      "Error processing broken/bad.jpg: cannot identify image file 'broken/bad.jpg'";
      newline +:+ "Processed 1 images. Output saved to: broken/broken_watermark" ].
Proof. vm_compute. reflexivity. Qed.

Example strptime_examples :
  DateTime.strptime_Ymd_HMS "2023-05-17 10:30:00"
  = inr (DateTime.mkDateTime 2023 5 17 10 30 0)
  /\ DateTime.strptime_Ymd_HMS "2023-5-7 1:2:3"
     = inr (DateTime.mkDateTime 2023 5 7 1 2 3)
  /\ DateTime.strptime_Ymd_HMS "2023-13-17 10:30:00" = inl DateTime.NoMatch
  /\ DateTime.strptime_Ymd_HMS "2023-02-30 10:30:00"
     = inl (DateTime.OutOfRange "day is out of range for month")
  /\ DateTime.strptime_Ymd_HMS "2023:05:17 10:30:00" = inl DateTime.NoMatch
  /\ DateTime.strptime_Ymd_HMS "2023-05-17 10:30:00Z"
     = inl (DateTime.UnconvertedData "Z").
Proof. repeat split; reflexivity. Qed.

Example path_examples :
  PosixPath.join "photos" "*.jpg" = "photos/*.jpg"
  /\ PosixPath.join "photos/" "a.jpg" = "photos/a.jpg"
  /\ PosixPath.split "photos//*.jpg" = ("photos", "*.jpg")
  /\ PosixPath.basename "photos/" = ""
  /\ PosixPath.basename "./photos" = "photos"
  /\ PosixPath.splitext "a.b.jpg" = ("a.b", ".jpg")
  /\ PosixPath.splitext ".jpg" = (".jpg", "")
  /\ PosixPath.resolve "./a//b/../c/" = ["a"; "c"]
  /\ output_dir_of "photos" = "photos/photos_watermark"
  /\ output_filename "IMG_0001.jpeg" = "IMG_0001_watermarked.jpeg".
Proof. repeat split; reflexivity. Qed.
(** ** Strings *)

Lemma append_String c s r : String c s +:+ r = String c (s +:+ r).
Proof. reflexivity. Qed.
Lemma append_Empty r : "" +:+ r = r.
Proof. reflexivity. Qed.
Lemma append_Empty_r s : s +:+ "" = s.
Proof. induction s; [reflexivity|]. rewrite append_String. now f_equal. Qed.
Lemma append_assoc a b c : (a +:+ b) +:+ c = a +:+ b +:+ c.
Proof. induction a; [reflexivity |]. rewrite !append_String. now f_equal. Qed.
Lemma append_eq_Empty a b : a +:+ b = "" -> a = "" /\ b = "".
Proof. destruct a; [now rewrite append_Empty | discriminate]. Qed.
Ltac dlia := Z.div_mod_to_equations; lia.
Ltac norm_append := rewrite ?append_String, ?append_Empty.

(** ** Dates: parsing what was formatted *)

Module DateTimeFacts.
Import DateTime.

Lemma digit_char_cases d : 0 <= d <= 9 ->
  d = 0 \/ d = 1 \/ d = 2 \/ d = 3 \/ d = 4 \/ d = 5 \/ d = 6 \/ d = 7 \/ d = 8 \/ d = 9.
Proof. lia. Qed.

Lemma digit_char_spec d : 0 <= d <= 9 ->
  is_digit (digit_char d) = true /\ digit_val (digit_char d) = d
  /\ Ascii.eqb (digit_char d) ":" = false
  /\ Ascii.eqb (digit_char d) " " = false.
Proof.
  intros Hd. destruct (digit_char_cases d Hd) as [-> | [-> | [-> | [-> | [-> | [-> | [-> | [-> | [-> | ->]]]]]]]]];
    repeat split; reflexivity.
Qed.

Lemma two_digits lo1 hi1 lo2 hi2 a b r : 0 <= a <= 9 -> 0 <= b <= 9 ->
  two lo1 hi1 lo2 hi2 (String (digit_char a) (String (digit_char b) r))
  = if (lo1 <=? a) && (a <=? hi1) && (lo2 <=? b) && (b <=? hi2)
    then Some (10 * a + b, r) else None.
Proof.
  intros Ha Hb. unfold two.
  destruct (digit_char_spec a Ha) as (-> & -> & _).
  destruct (digit_char_spec b Hb) as (-> & -> & _).
  reflexivity.
Qed.

Lemma take_m_pad2 n r : 1 <= n <= 12 -> take_m (pad2 n +:+ r) = Some (n, r).
Proof.
  intros Hn. unfold take_m, alt, pad2. norm_append.
  rewrite !two_digits by dlia.
  repeat (match goal with |- context [?a <=? ?b] => destruct (Z.leb_spec a b) end; simpl); try dlia; try (f_equal; f_equal; dlia).
Qed.

Lemma one_digit lo hi a r : 0 <= a <= 9 ->
  one lo hi (String (digit_char a) r)
  = if (lo <=? a) && (a <=? hi) then Some (a, r) else None.
Proof.
  intros Ha. unfold one.
  destruct (digit_char_spec a Ha) as (-> & -> & _). reflexivity.
Qed.

Ltac split_leb :=
  repeat (match goal with |- context [?a <=? ?b] => destruct (Z.leb_spec a b) end;
          cbn [andb]);
  try dlia; try (f_equal; f_equal; dlia).

Lemma take_d_pad2 n r : 1 <= n <= 31 -> take_d (pad2 n +:+ r) = Some (n, r).
Proof.
  intros Hn. unfold take_d, alt, pad2. norm_append.
  rewrite !two_digits by dlia. split_leb.
Qed.
Lemma take_H_pad2 n r : 0 <= n <= 23 -> take_H (pad2 n +:+ r) = Some (n, r).
Proof.
  intros Hn. unfold take_H, alt, pad2. norm_append.
  rewrite !two_digits by dlia. split_leb.
Qed.
Lemma take_M_pad2 n r : 0 <= n <= 59 -> take_M (pad2 n +:+ r) = Some (n, r).
Proof.
  intros Hn. unfold take_M, alt, pad2. norm_append.
  rewrite !two_digits by dlia. split_leb.
Qed.
Lemma take_S_pad2 n r : 0 <= n <= 59 -> take_S (pad2 n +:+ r) = Some (n, r).
Proof.
  intros Hn. unfold take_S, alt, pad2. norm_append.
  rewrite !two_digits by dlia. split_leb.
Qed.
Lemma take_Y_pad4 n r : 0 <= n <= 9999 -> take_Y (pad4 n +:+ r) = Some (n, r).
Proof.
  intros Hn. unfold take_Y, pad4. norm_append.
  destruct (digit_char_spec (n / 1000)) as (-> & -> & _); [dlia|].
  destruct (digit_char_spec (n / 100 mod 10)) as (-> & -> & _); [dlia|].
  destruct (digit_char_spec (n / 10 mod 10)) as (-> & -> & _); [dlia|].
  destruct (digit_char_spec (n mod 10)) as (-> & -> & _); [dlia|].
  cbn [andb]. f_equal. f_equal. dlia.
Qed.

Lemma is_space_digit d : 0 <= d <= 9 -> is_space (digit_char d) = false.
Proof.
  intros Hd.
  destruct (digit_char_cases d Hd) as [-> | [-> | [-> | [-> | [-> | [-> | [-> | [-> | [-> | ->]]]]]]]]]; reflexivity.
Qed.

Lemma replace_digit d n s : 0 <= d <= 9 ->
  PyStr.replace ":" "-" (S n) (String (digit_char d) s)
  = String (digit_char d) (PyStr.replace ":" "-" (S n) s).
Proof.
  intros Hd. cbn [PyStr.replace].
  destruct (digit_char_spec d Hd) as (_ & _ & -> & _). reflexivity.
Qed.

Lemma replace_zero old new s : PyStr.replace old new 0 s = s.
Proof. destruct s; reflexivity. Qed.


Lemma skip_spaces_pad2 n r : 0 <= n <= 99 -> skip_spaces (pad2 n +:+ r) = pad2 n +:+ r.
Proof.
  intros Hn. unfold pad2. norm_append. cbn [skip_spaces].
  rewrite is_space_digit by dlia. reflexivity.
Qed.


End DateTimeFacts.

(** ** Paths *)

Module PathFacts.
Import PyStr PosixPath.

Lemma contains_app c a b :
  contains c (a +:+ b) = contains c a || contains c b.
Proof.
  induction a as [| x a IH]; [reflexivity |].
  rewrite append_String. cbn [contains]. rewrite IH. now rewrite orb_assoc.
Qed.

Lemma split_nonempty c s : PyStr.split c s <> [].
Proof.
  destruct s as [| x s]; cbn [PyStr.split]; [discriminate |].
  destruct (Ascii.eqb x c); [discriminate |]. now destruct (PyStr.split c s).
Qed.

Lemma split_no_sep c s : contains c s = false -> PyStr.split c s = [s].
Proof.
  induction s as [| x s IH]; [reflexivity |].
  cbn [contains PyStr.split]. intros [Hx Hs]%orb_false_elim.
  now rewrite Hx, (IH Hs).
Qed.

Lemma split_app_sep c a b :
  PyStr.split c (a +:+ String c b) = PyStr.split c a ++ PyStr.split c b.
Proof.
  induction a as [| x a IH].
  - rewrite append_Empty. cbn [PyStr.split]. now rewrite Ascii.eqb_refl.
  - rewrite append_String. cbn [PyStr.split]. rewrite IH.
    destruct (Ascii.eqb x c); [reflexivity |].
    pose proof (split_nonempty c a). now destruct (PyStr.split c a).
Qed.

Lemma rsplit_no_sep c s : contains c s = false -> rsplit c s = None.
Proof.
  induction s as [| x s IH]; [reflexivity |].
  cbn [contains rsplit]. intros [Hx Hs]%orb_false_elim.
  now rewrite (IH Hs), Hx.
Qed.

Lemma rsplit_app_sep c a b :
  contains c b = false -> rsplit c (a +:+ String c b) = Some (a, b).
Proof.
  intros Hb. induction a as [| x a IH].
  - rewrite append_Empty. cbn [rsplit].
    now rewrite (rsplit_no_sep _ _ Hb), Ascii.eqb_refl.
  - rewrite append_String. cbn [rsplit]. now rewrite IH.
Qed.

Lemma endswith_inv c s :
  endswith c s = true -> exists s', s = s' +:+ String c "".
Proof.
  induction s as [| x s IH]; [discriminate |].
  cbn [endswith]. destruct s as [| y s].
  - intros ->%Ascii.eqb_eq. now exists "".
  - intros (s' & ->)%IH. now exists (String x s').
Qed.

Lemma startswith_contains c s : startswith c s = true -> contains c s = true.
Proof. destruct s; [discriminate |]. cbn. now intros ->. Qed.

(** Resolution folds the components from the left. *)
Lemma resolve_app_sep a b :
  resolve (a +:+ String sep b)
  = fold_left resolve_step (PyStr.split sep b) (resolve a).
Proof. unfold resolve. now rewrite split_app_sep, fold_left_app. Qed.

Lemma resolve_sep_end a : resolve (a +:+ String sep "") = resolve a.
Proof. now rewrite resolve_app_sep. Qed.

Lemma valid_name_inv n :
  valid_name n = true ->
  n <> "" /\ contains sep n = false /\ n <> "." /\ n <> "..".
Proof.
  unfold valid_name. intros H.
  repeat (apply andb_prop in H as [H ?]).
  repeat match goal with
         | H : negb _ = true |- _ => apply negb_true_iff in H
         end.
  repeat split; trivial; now apply String.eqb_neq.
Qed.

Lemma resolve_step_valid acc n :
  valid_name n = true -> resolve_step acc n = acc ++ [n].
Proof.
  intros (H1 & _ & H2 & H3)%valid_name_inv. unfold resolve_step.
  apply String.eqb_neq in H1, H2, H3. now rewrite H1, H2, H3.
Qed.

(** The path of the entry [n] of the directory [d]. *)
Lemma resolve_join d n :
  valid_name n = true -> resolve (join d n) = resolve d ++ [n].
Proof.
  intros Hn. pose proof (valid_name_inv _ Hn) as (_ & Hsep & _).
  unfold join.
  destruct (startswith sep n) eqn:Hs;
    [apply startswith_contains in Hs; congruence |].
  destruct (String.eqb_spec d "") as [-> | Hd].
  - cbn [orb]. rewrite append_Empty. unfold resolve at 1.
    now rewrite (split_no_sep _ _ Hsep); cbn; rewrite resolve_step_valid.
  - cbn [orb]. destruct (endswith sep d) eqn:He.
    + apply endswith_inv in He as (d' & ->).
      rewrite append_assoc, append_String, append_Empty.
      rewrite resolve_app_sep, resolve_sep_end, (split_no_sep _ _ Hsep).
      cbn. now apply resolve_step_valid.
    + rewrite append_String, append_Empty.
      rewrite resolve_app_sep, (split_no_sep _ _ Hsep).
      cbn. now apply resolve_step_valid.
Qed.

Lemma join_nonempty d n : n <> "" -> join d n <> "".
Proof.
  intros Hn. unfold join. repeat case_match; try done.
  - now intros [_ ?]%append_eq_Empty.
  - intros [_ Hcontra]%append_eq_Empty. discriminate.
Qed.

Lemma basename_join d n : contains sep n = false -> basename (join d n) = n.
Proof.
  intros Hsep. unfold join, basename.
  destruct (startswith sep n) eqn:Hs;
    [apply startswith_contains in Hs; congruence |].
  destruct (String.eqb_spec d "") as [-> | Hd]; cbn [orb].
  - now rewrite append_Empty, (rsplit_no_sep _ _ Hsep).
  - destruct (endswith sep d) eqn:He.
    + apply endswith_inv in He as (d' & ->).
      rewrite append_assoc, append_String, append_Empty.
      now rewrite (rsplit_app_sep _ _ _ Hsep).
    + rewrite append_String, append_Empty.
      now rewrite (rsplit_app_sep _ _ _ Hsep).
Qed.

Lemma all_char_rstrip c s : all_char c s = true -> rstrip c s = "".
Proof. destruct s; [reflexivity |]. cbn [rstrip]. now intros ->. Qed.

(** Stripping slashes at the end only drops empty components. *)
Lemma split_rstrip c s :
  exists k, PyStr.split c s = PyStr.split c (rstrip c s) ++ replicate k "".
Proof.
  induction s as [| x s (k & IH)]; [now exists 0%nat |].
  cbn [rstrip]. destruct (all_char c (String x s)) eqn:Hall.
  - cbn [all_char] in Hall. apply andb_prop in Hall as [Hx Hs].
    rewrite (all_char_rstrip _ _ Hs) in IH.
    exists (S k). cbn [PyStr.split]. now rewrite Hx, IH.
  - cbn [PyStr.split]. rewrite IH. exists k.
    destruct (Ascii.eqb x c); [reflexivity |].
    pose proof (split_nonempty c (rstrip c s)).
    now destruct (PyStr.split c (rstrip c s)).
Qed.

Lemma fold_resolve_step_empties k acc :
  fold_left resolve_step (replicate k "") acc = acc.
Proof. induction k; [reflexivity | exact IHk]. Qed.

Lemma resolve_rstrip s : resolve (rstrip sep s) = resolve s.
Proof.
  unfold resolve. destruct (split_rstrip sep s) as (k & ->).
  now rewrite fold_left_app, fold_resolve_step_empties.
Qed.

Lemma contains_rstrip x c s :
  contains x (rstrip c s) = true -> contains x s = true.
Proof.
  induction s as [| y s IH]; [discriminate |].
  cbn [rstrip]. destruct (all_char c (String y s)); [discriminate |].
  cbn [contains]. intros [-> | H]%orb_prop; [reflexivity |].
  rewrite (IH H). apply orb_true_r.
Qed.

Lemma has_magic_rstrip c s :
  has_magic s = false -> has_magic (rstrip c s) = false.
Proof.
  unfold has_magic. intros H.
  apply orb_false_elim in H as [H H3]. apply orb_false_elim in H as [H1 H2].
  destruct (contains "*" (rstrip c s)) eqn:E1;
    [apply contains_rstrip in E1; congruence |].
  destruct (contains "?" (rstrip c s)) eqn:E2;
    [apply contains_rstrip in E2; congruence |].
  destruct (contains "[" (rstrip c s)) eqn:E3;
    [apply contains_rstrip in E3; congruence |].
  reflexivity.
Qed.

Lemma has_magic_app a b : has_magic (a +:+ b) = has_magic a || has_magic b.
Proof.
  unfold has_magic. rewrite !contains_app.
  repeat match goal with |- context [contains ?c ?s] =>
    destruct (contains c s) end; reflexivity.
Qed.

(** The directory part of the patterns of the driver names the input
    directory. *)
Lemma resolve_dirname_of d : resolve (dirname_of d) = resolve d.
Proof.
  unfold dirname_of. destruct (String.eqb_spec d "") as [-> |]; [reflexivity |].
  assert (Hh : resolve (if endswith sep d then d else d +:+ "/") = resolve d).
  { destruct (endswith sep d); [reflexivity | apply resolve_sep_end]. }
  destruct (all_char sep _); [exact Hh | now rewrite resolve_rstrip].
Qed.

Lemma has_magic_dirname_of d :
  has_magic d = false -> has_magic (dirname_of d) = false.
Proof.
  intros Hm. unfold dirname_of.
  destruct (String.eqb_spec d "") as [-> |]; [reflexivity |].
  assert (Hh : has_magic (if endswith sep d then d else d +:+ "/") = false).
  { destruct (endswith sep d); [exact Hm | now rewrite has_magic_app, Hm]. }
  destruct (all_char sep _); [exact Hh | now apply has_magic_rstrip].
Qed.

Lemma split_join_pattern d pat :
  contains sep pat = false ->
  PosixPath.split (join d pat) = (dirname_of d, pat).
Proof.
  intros Hsep. unfold join, PosixPath.split, dirname_of.
  destruct (startswith sep pat) eqn:Hs;
    [apply startswith_contains in Hs; congruence |].
  destruct (String.eqb_spec d "") as [-> | Hd]; cbn [orb].
  - now rewrite append_Empty, (rsplit_no_sep _ _ Hsep).
  - destruct (endswith sep d) eqn:He.
    + apply endswith_inv in He as (d' & ->).
      rewrite append_assoc, append_String, append_Empty.
      now rewrite (rsplit_app_sep _ _ _ Hsep).
    + rewrite append_String, append_Empty.
      now rewrite (rsplit_app_sep _ _ _ Hsep).
Qed.

Lemma has_magic_join d pat :
  has_magic pat = true -> has_magic (join d pat) = true.
Proof.
  intros Hm. unfold join. repeat case_match; trivial;
    rewrite !has_magic_app, Hm; now rewrite ?orb_true_r.
Qed.

Lemma rsplit_None c s : rsplit c s = None -> contains c s = false.
Proof.
  induction s as [| x s IH]; [reflexivity |].
  cbn [rsplit contains]. destruct (rsplit c s) as [[b a] |]; [discriminate |].
  destruct (Ascii.eqb x c); [discriminate |]. intros _. now apply IH.
Qed.

Lemma rsplit_Some c s b a :
  rsplit c s = Some (b, a) -> s = b +:+ String c a /\ contains c a = false.
Proof.
  revert b. induction s as [| x s IH]; intros b; [discriminate |].
  cbn [rsplit]. destruct (rsplit c s) as [[b' a'] |] eqn:Hr.
  - intros [= <- <-]. destruct (IH b' eq_refl) as [-> Ha].
    now rewrite append_String.
  - destruct (Ascii.eqb_spec x c) as [-> |]; [| discriminate].
    intros [= <- <-]. split; [reflexivity | now apply rsplit_None].
Qed.

Lemma basename_no_sep p : contains sep (basename p) = false.
Proof.
  unfold basename. destruct (rsplit sep p) as [[b a] |] eqn:Hr.
  - now apply rsplit_Some in Hr.
  - now apply rsplit_None.
Qed.

Lemma splitext_name_parts f name ext :
  splitext_name f = (name, ext) -> f = name +:+ ext.
Proof.
  unfold splitext_name. destruct (rsplit extsep f) as [[b a] |] eqn:Hr.
  - destruct (all_char extsep b).
    + intros [= <- <-]. now rewrite append_Empty_r.
    + intros [= <- <-]. now apply rsplit_Some in Hr.
  - intros [= <- <-]. now rewrite append_Empty_r.
Qed.

Lemma splitext_no_sep f :
  contains sep f = false -> splitext f = splitext_name f.
Proof. intros H. unfold splitext. now rewrite (rsplit_no_sep _ _ H). Qed.

Lemma valid_name_intro n :
  contains "_" n = true -> contains sep n = false -> valid_name n = true.
Proof.
  intros Hu Hs. unfold valid_name. rewrite Hs.
  destruct (String.eqb_spec n "") as [-> |]; [discriminate |].
  destruct (String.eqb_spec n ".") as [-> |]; [discriminate |].
  destruct (String.eqb_spec n "..") as [-> |]; [discriminate |].
  reflexivity.
Qed.

Lemma output_filename_valid f :
  contains sep f = false -> valid_name (output_filename f) = true.
Proof.
  intros Hf. unfold output_filename. rewrite (splitext_no_sep _ Hf).
  destruct (splitext_name f) as [name ext] eqn:Hs.
  apply splitext_name_parts in Hs as ->.
  rewrite contains_app in Hf. apply orb_false_elim in Hf as [Hn He].
  apply valid_name_intro.
  - rewrite !contains_app. cbn. apply orb_true_r.
  - rewrite !contains_app, Hn, He. reflexivity.
Qed.

Lemma output_dir_name_valid d :
  valid_name (basename d +:+ "_watermark") = true.
Proof.
  apply valid_name_intro.
  - rewrite contains_app. cbn. apply orb_true_r.
  - rewrite contains_app, basename_no_sep. reflexivity.
Qed.

(** Where the output directory and the outputs are. *)
Lemma resolve_output_dir d :
  resolve (output_dir_of d) = resolve d ++ [basename d +:+ "_watermark"].
Proof. apply resolve_join, output_dir_name_valid. Qed.

Lemma resolve_output_path d p :
  resolve (output_path_of d p)
  = resolve d ++ [basename d +:+ "_watermark"; output_filename (basename p)].
Proof.
  unfold output_path_of.
  rewrite resolve_join by apply output_filename_valid, basename_no_sep.
  now rewrite resolve_output_dir, <- app_assoc.
Qed.

Lemma output_path_nonempty d p : output_path_of d p <> "".
Proof.
  apply join_nonempty.
  pose proof (output_filename_valid _ (basename_no_sep p)) as H.
  now apply valid_name_inv in H.
Qed.

(** *** Patterns *)




End PathFacts.

(** ** File system *)

Section FileSystem.

Implicit Types (fs : gmap (list string) node) (d k pre rest : list string).

Lemma walk_None fs pre rest : walk fs None pre rest = None.
Proof. now destruct rest. Qed.

Lemma walk_app fs cur pre r1 r2 :
  walk fs cur pre (r1 ++ r2) = walk fs (walk fs cur pre r1) (pre ++ r1) r2.
Proof.
  revert cur pre. induction r1 as [| c r1 IH]; intros cur pre.
  - now rewrite app_nil_r.
  - cbn [app walk]. destruct cur as [[data |] |].
    + now rewrite walk_None.
    + rewrite IH. now rewrite <- app_assoc.
    + now rewrite walk_None.
Qed.

(** An entry is found through its directory. *)
Lemma lookup_path_snoc fs d n :
  lookup_path fs (d ++ [n])
  = match lookup_path fs d with
    | Some Dir => fs !! (d ++ [n])
    | _ => None
    end.
Proof.
  unfold lookup_path. rewrite walk_app. cbn [walk app].
  now destruct (walk fs (Some Dir) [] d) as [[data |] |].
Qed.

(** Two file systems that agree on the keys no longer than a path agree on
    the path. *)
Lemma walk_agree fs1 fs2 cur pre rest :
  (forall k, (length k <= length pre + length rest)%nat -> fs1 !! k = fs2 !! k) ->
  walk fs1 cur pre rest = walk fs2 cur pre rest.
Proof.
  revert cur pre. induction rest as [| c rest IH]; intros cur pre Hagree;
    [reflexivity |].
  cbn [walk]. destruct cur as [[data |] |]; try reflexivity.
  rewrite (Hagree (pre ++ [c])) by (rewrite length_app; cbn; lia).
  apply IH. intros k Hk. apply Hagree. rewrite length_app in Hk. cbn in *. lia.
Qed.

Lemma lookup_path_agree fs1 fs2 p :
  (forall k, (length k <= length p)%nat -> fs1 !! k = fs2 !! k) ->
  lookup_path fs1 p = lookup_path fs2 p.
Proof. intros H. apply walk_agree. exact H. Qed.

Lemma child_name_Some d k n :
  child_name d k = Some n <-> k = d ++ [n] /\ valid_name n = true.
Proof.
  revert k. induction d as [| x d IH]; intros k.
  - destruct k as [| y [| z k]]; cbn [child_name app].
    + split; [discriminate | now intros [? _]].
    + destruct (valid_name y) eqn:Hv.
      * split; [now intros [= ->] | now intros [[= ->] _]].
      * split; [discriminate | intros [[= ->] ?]; congruence].
    + split; [discriminate | now intros [? _]].
  - destruct k as [| y k]; cbn [child_name app];
      [split; [discriminate | now intros [? _]] |].
    destruct (String.eqb_spec x y) as [-> | Hne].
    + rewrite IH. split; [now intros [-> ?] | now intros [[= ->] ?]].
    + split; [discriminate | intros [[= ? _] _]; congruence].
Qed.

Lemma elem_of_children fs d n :
  n ∈ children fs d <-> valid_name n = true /\ is_Some (fs !! (d ++ [n])).
Proof.
  unfold children. rewrite list_elem_of_omap. split.
  - intros ([k x] & Hin & Hc). cbn [fst] in Hc.
    apply child_name_Some in Hc as [-> Hv]. split; [exact Hv |].
    apply elem_of_map_to_list in Hin. eauto.
  - intros [Hv [x Hx]]. exists (d ++ [n], x). split.
    + now apply elem_of_map_to_list.
    + cbn [fst]. now apply child_name_Some.
Qed.

Lemma NoDup_children fs d : NoDup (children fs d).
Proof.
  unfold children.
  pose proof (NoDup_fst_map_to_list fs) as Hnd.
  induction (map_to_list fs) as [| [k x] l IH]; [constructor |].
  cbn [fmap list_fmap fst] in Hnd. apply NoDup_cons in Hnd as [Hk Hnd].
  cbn [omap list_omap fst]. destruct (child_name d k) as [n |] eqn:Hc; [| auto].
  apply NoDup_cons. split; [| auto].
  intros ([k' x'] & Hin & Hc')%list_elem_of_omap. cbn [fst] in Hc'.
  apply child_name_Some in Hc as [-> _]. apply child_name_Some in Hc' as [-> _].
  apply Hk. apply (list_elem_of_fmap_2 fst) in Hin. exact Hin.
Qed.

(** Listings of file systems that have the same entries in [d]. *)
Lemma children_agree fs1 fs2 d :
  (forall n, is_Some (fs1 !! (d ++ [n])) <-> is_Some (fs2 !! (d ++ [n]))) ->
  children fs1 d ≡ₚ children fs2 d.
Proof.
  intros H. apply NoDup_Permutation; try apply NoDup_children.
  intros n. rewrite !elem_of_children. now rewrite H.
Qed.

(** [makedirs] of an entry of an existing directory. *)
Lemma mkdirs_entry fs pre rest n :
  walk fs (Some Dir) pre rest = Some Dir ->
  (pre = [] \/ fs !! pre = Some Dir) ->
  mkdirs pre (rest ++ [n]) fs
  = match fs !! (pre ++ rest ++ [n]) with
    | Some Dir => (fs, None)
    | Some (File _) => (fs, Some [])
    | None => (<[pre ++ rest ++ [n] := Dir]> fs, None)
    end.
Proof.
  revert pre. induction rest as [| c rest IH]; intros pre Hwalk Hpre.
  - cbn [app mkdirs]. now destruct (fs !! (pre ++ [n])) as [[data |] |].
  - cbn [app mkdirs]. cbn [walk] in Hwalk.
    destruct (fs !! (pre ++ [c])) as [[data |] |] eqn:Hc.
    + destruct rest; cbn in Hwalk; discriminate.
    + rewrite (IH (pre ++ [c]) Hwalk (or_intror Hc)).
      now rewrite <- !app_assoc.
    + now rewrite walk_None in Hwalk.
Qed.

End FileSystem.

(** ** Lists *)

Section Lists.

Context {A B : Type}.

Lemma elem_of_filter (f : A -> bool) (l : list A) (x : A) :
  x ∈ List.filter f l <-> f x = true /\ x ∈ l.
Proof. rewrite !list_elem_of_In, filter_In. tauto. Qed.

Lemma elem_of_map (f : A -> B) (l : list A) (y : B) :
  y ∈ map f l <-> exists x, y = f x /\ x ∈ l.
Proof.
  rewrite list_elem_of_In, in_map_iff. split.
  - intros (x & <- & Hx). exists x. now rewrite list_elem_of_In.
  - intros (x & -> & Hx). exists x. now rewrite <- list_elem_of_In.
Qed.

Lemma elem_of_flat_map (f : A -> list B) (l : list A) (y : B) :
  y ∈ flat_map f l <-> exists x, x ∈ l /\ y ∈ f x.
Proof.
  rewrite list_elem_of_In, in_flat_map. split.
  - intros (x & Hx & Hy). exists x. now rewrite !list_elem_of_In.
  - intros (x & Hx & Hy). exists x. now rewrite <- !list_elem_of_In.
Qed.

Lemma Permutation_filter (f : A -> bool) (l l' : list A) :
  l ≡ₚ l' -> List.filter f l ≡ₚ List.filter f l'.
Proof.
  induction 1 as [| x l l' _ IH | x y l | l l' l'' _ IH1 _ IH2]; cbn [List.filter].
  - constructor.
  - destruct (f x); [now constructor | exact IH].
  - destruct (f x), (f y); try reflexivity. apply perm_swap.
  - now transitivity (List.filter f l').
Qed.

Lemma NoDup_filter (f : A -> bool) (l : list A) :
  NoDup l -> NoDup (List.filter f l).
Proof.
  induction 1 as [| x l Hx _ IH]; cbn [List.filter]; [constructor |].
  destruct (f x); [| exact IH]. constructor; [| exact IH].
  rewrite elem_of_filter. tauto.
Qed.

Lemma NoDup_map_inj (f : A -> B) (l : list A) :
  (forall x y, x ∈ l -> y ∈ l -> f x = f y -> x = y) ->
  NoDup l -> NoDup (map f l).
Proof.
  intros Hinj. induction 1 as [| x l Hx _ IH]; cbn [map]; [constructor |].
  constructor.
  - rewrite elem_of_map. intros (y & Heq & Hy).
    apply Hx. rewrite (Hinj x y); [exact Hy | left | now right | exact Heq].
  - apply IH. intros y z Hy Hz. apply Hinj; now right.
Qed.

End Lists.

(** ** EXIF date extraction *)

Section Extraction.

Context {P : Platform}.

Lemma tag_is_DateTime tag_id :
  tag_is (TAGS_get tag_id) "DateTime" = (tag_id =? 306).
Proof.
  unfold TAGS_get.
  repeat (match goal with
          | |- context [?a =? ?b] =>
              lazymatch b with 306 => fail | _ => destruct (Z.eqb_spec a b) end
          end; [subst; reflexivity |]).
  destruct (tag_id =? 306); reflexivity.
Qed.

(** The keys of a dictionary are distinct, so the entry of a tag is the
    one the loop finds. *)
Lemma scan_exif_found items value :
  NoDup items.*1 -> (306, value) ∈ items ->
  scan_exif items = match parse_datetime_value value with
                    | Raise e => Raise e
                    | Ok date => Ok (Some date)
                    end.
Proof.
  induction items as [| [tag_id v] items IH]; intros Hnd Hin.
  - inversion Hin.
  - cbn [scan_exif]. rewrite tag_is_DateTime.
    apply NoDup_cons in Hnd as [Hfresh Hnd].
    apply elem_of_cons in Hin as [Heq | Hin].
    + injection Heq as <- <-. reflexivity.
    + destruct (Z.eqb_spec tag_id 306) as [-> | Hne].
      * exfalso. apply Hfresh. apply (list_elem_of_fmap_2 fst) in Hin. exact Hin.
      * apply IH; assumption.
Qed.


Lemma read_exif_date_dict img items :
  img_exif img = GetexifDict items -> read_exif_date img = scan_exif items.
Proof. unfold read_exif_date. intros ->. now destruct items. Qed.

Lemma parse_datetime_value_Exception value e :
  parse_datetime_value value = Raise e -> is_Exception e = true.
Proof.
  unfold parse_datetime_value, value_replace.
  destruct value; try (intros [= <-]; reflexivity).
  destruct (DateTime.strptime_Ymd_HMS _) as [[] |]; intros [= <-]; reflexivity.
Qed.

Lemma scan_exif_Exception items e :
  scan_exif items = Raise e -> is_Exception e = true.
Proof.
  induction items as [| [tag_id v] items IH]; [discriminate |].
  cbn [scan_exif]. destruct (tag_is _ _); [| exact IH].
  destruct (parse_datetime_value v) eqn:Hp; [discriminate |].
  intros [= <-]. eapply parse_datetime_value_Exception, Hp.
Qed.

Lemma open_outcome_Exception fs path e :
  open_outcome fs path = Raise e -> is_Exception e = true.
Proof.
  unfold open_outcome. destruct (stat fs path) as [[data |] |].
  - destruct (decode data); [discriminate |]. now intros [= <-].
  - now intros [= <-].
  - now intros [= <-].
Qed.

Lemma exif_outcome_Exception fs path e :
  exif_outcome fs path = Raise e -> is_Exception e = true.
Proof.
  unfold exif_outcome.
  destruct (open_outcome fs path) as [img | e'] eqn:Ho.
  - unfold read_exif_date. destruct (img_exif img) as [msg | | [| i items]];
      try discriminate.
    + now intros [= <-].
    + apply scan_exif_Exception.
  - intros [= <-]. eapply open_outcome_Exception, Ho.
Qed.

(** [get_exif_datetime] in one equation: the outcome of the body, and a
    warning for an exception. *)
Lemma get_exif_datetime_eq path w :
  get_exif_datetime path w
  = match exif_outcome (w_fs w) path with
    | Ok r => (Ok r, log (EvOpen path) w)
    | Raise e => (Ok None, put_line (warning_line path e) (log (EvOpen path) w))
    end.
Proof.
  pose proof (exif_outcome_Exception (w_fs w) path) as Hexn.
  unfold get_exif_datetime, try_except, bind, Image_open, lift, exif_outcome in *.
  destruct (open_outcome (w_fs w) path) as [img | e].
  - cbn [w_fs log]. destruct (read_exif_date img) as [r | e]; [reflexivity |].
    now rewrite (Hexn e eq_refl).
  - now rewrite (Hexn e eq_refl).
Qed.


End Extraction.






(** ** Watermark renderer *)

Section Renderer.

Context {P : Platform}.

Lemma watermark_image_Exception img text font_size color position e :
  watermark_image img text font_size color position = Raise e ->
  is_Exception e = true.
Proof.
  unfold watermark_image.
  destruct (textbbox _ _) as [[[[x0 y0] x1] y1] |].
  - destruct (get_position_coordinates _ _ _ _ _). discriminate.
  - now intros [= <-].
Qed.

Lemma save_target_Exception fs path e :
  save_target fs path = inl e -> is_Exception e = true.
Proof.
  unfold save_target. repeat case_match; intros [= <-]; reflexivity.
Qed.

Lemma render_outcome_Exception fs path out font_size color position e :
  render_outcome fs path out font_size color position = Raise e ->
  is_Exception e = true.
Proof.
  unfold render_outcome.
  destruct (open_outcome fs path) as [img |] eqn:Ho;
    [| intros [= <-]; eapply open_outcome_Exception, Ho].
  destruct (watermark_image _ _ _ _ _) as [img' |] eqn:Hw;
    [| intros [= <-]; eapply watermark_image_Exception, Hw].
  destruct (encode out img'); [| now intros [= <-]].
  destruct (save_target fs out) as [e' | p] eqn:Hs; [| discriminate].
  intros [= <-]. eapply save_target_Exception, Hs.
Qed.

(** [add_watermark] never raises; it writes what [render_outcome] says. *)
Lemma add_watermark_eq path out font_size color position w :
  exists w',
    add_watermark path out font_size color position w = (Ok tt, w')
    /\ w_fs w' = match render_outcome (w_fs w) path out font_size color position with
                 | Ok (p, data) => <[p := File data]> (w_fs w)
                 | Raise _ => w_fs w
                 end
    /\ w_console w' = w_console w
                      ++ watermark_lines (w_fs w) path out font_size color position.
Proof.
  pose proof (render_outcome_Exception (w_fs w) path out font_size color position)
    as Hexn.
  unfold add_watermark, try_except, bind, watermark_lines, render_outcome,
    watermark_text_of in *.
  rewrite get_exif_datetime_eq.
  destruct (exif_outcome (w_fs w) path) as [r | e0] eqn:Hex;
    unfold Image_open; cbn [w_fs log put_line];
    (destruct (open_outcome (w_fs w) path) as [img |] eqn:Ho;
      [unfold watermark_image, draw_textbbox in *;
       destruct (textbbox _ _) as [[[[x0 y0] x1] y1] |];
       [cbn [ret raise]; destruct (get_position_coordinates _ _ _ _ _) as [x y];
        unfold Image_save; cbn [w_fs log put_line];
        destruct (encode out _) as [data |];
        [destruct (save_target (w_fs w) out) as [e | p] |] |] |]);
    rewrite ?(Hexn _ eq_refl);
    (eexists; split; [reflexivity |]; cbn; split; [reflexivity |];
     rewrite <- ?app_assoc; reflexivity).
Qed.


End Renderer.



(** ** Command line *)

(** C7: when the input directory argument does not name an existing
    directory, the program prints the error message and exits with
    status 1; nothing else is printed, no directory is made, no file is
    opened or written. *)
Theorem main_missing_directory {P : Platform} (a : args) (w : world) :
  is_dir (w_fs w) (input_dir a) = false ->
  main a w
  = (Raise (SystemExit 1),
     put_line ("Error: Directory '" +:+ input_dir a +:+ "' does not exist.") w)
  /\ exit_status (fst (main a w)) = 1
  /\ w_fs (snd (main a w)) = w_fs w
  /\ w_log (snd (main a w)) = w_log w.
Proof.
  intros Hdir.
  assert (Hmain : main a w
    = (Raise (SystemExit 1),
       put_line ("Error: Directory '" +:+ input_dir a +:+ "' does not exist.") w)).
  { unfold main, bind, isdir. rewrite Hdir. reflexivity. }
  rewrite Hmain. repeat split.
Qed.

(** On an existing directory [main] prints its three lines and runs the
    driver. *)
Lemma main_existing_directory {P : Platform} (a : args) (w : world) :
  is_dir (w_fs w) (input_dir a) = true ->
  main a w
  = process_directory (input_dir a) (font_size a) (color a) (position a)
      (put_line dashes
         (put_line ("Settings: Font Size=" +:+ PyStr.of_Z (font_size a)
                    +:+ ", Color=" +:+ color a
                    +:+ ", Position=" +:+ position a)
            (put_line ("Processing images in: " +:+ input_dir a) w))).
Proof. intros Hdir. unfold main, bind, isdir. rewrite Hdir. reflexivity. Qed.

Lemma main_missing_directory_witness :
  exit_status (fst (main (P := Demo.toy)
                      (mkArgs "nowhere" 36 "white" "bottom-right") Demo.photos))
  = 1.
Proof.
  apply (main_missing_directory (P := Demo.toy)
           (mkArgs "nowhere" 36 "white" "bottom-right") Demo.photos).
  vm_compute. reflexivity.
Defined.

(** ** Directory batch driver *)

Section Driver.

Context {P : Platform}.
Variables (input_dir : string) (font_size : Z) (color position : string).

(** The file system the loops start from: the output directory is there. *)
Variable fsA : gmap (list string) node.

Abbreviation D := (PosixPath.resolve input_dir).
Abbreviation X := (PosixPath.basename input_dir +:+ "_watermark").
Abbreviation out_of p := (output_path_of input_dir p).
Abbreviation key_of p :=
  (D ++ [X; output_filename (PosixPath.basename p)]).
Abbreviation overlaid_on := (overlaid fsA input_dir font_size color position).
Abbreviation writes_of := (writes fsA input_dir font_size color position).

Hypothesis HO : lookup_path fsA (D ++ [X]) = Some Dir.

Lemma key_of_snoc p :
  key_of p = (D ++ [X]) ++ [output_filename (PosixPath.basename p)].
Proof. now rewrite <- app_assoc. Qed.

(** [save] on an output path, when the output directory is there. *)
Lemma save_target_output fs p :
  lookup_path fs (D ++ [X]) = Some Dir ->
  save_target fs (out_of p)
  = match fs !! key_of p with
    | Some Dir => inl (IsADirectoryError (out_of p))
    | _ => inr (key_of p)
    end.
Proof.
  intros HOfs. unfold save_target, stat.
  destruct (String.eqb_spec (out_of p) "") as [He |];
    [now apply PathFacts.output_path_nonempty in He |].
  rewrite PathFacts.resolve_output_path, key_of_snoc, lookup_path_snoc, HOfs.
  destruct (fs !! _) as [[data |] |]; try reflexivity.
  now rewrite removelast_last, HOfs.
Qed.

Lemma render_outcome_Ok fs path out k data :
  render_outcome fs path out font_size color position = Ok (k, data) <->
  rendered fs path out font_size color position = Some data
  /\ save_target fs out = inr k.
Proof.
  unfold render_outcome, rendered.
  destruct (open_outcome fs path) as [img |]; [| split; [discriminate | now intros []]].
  destruct (watermark_image _ _ _ _ _) as [img' |];
    [| split; [discriminate | now intros []]].
  destruct (encode out img') as [data' |];
    [| split; [discriminate | now intros []]].
  destruct (save_target fs out) as [e | k'].
  - split; [discriminate | now intros []].
  - split; [now intros [= -> ->] | now intros [[= ->] [= ->]]].
Qed.

Lemma writes_Some p k data :
  writes_of p = Some (k, data) <->
  is_file fsA p = true
  /\ rendered fsA p (out_of p) font_size color position = Some data
  /\ k = key_of p /\ fsA !! key_of p <> Some Dir.
Proof.
  unfold writes. destruct (is_file fsA p); [| split; [discriminate | now intros []]].
  destruct (render_outcome _ _ _ _ _ _) as [[k' data'] |] eqn:Hr.
  - apply render_outcome_Ok in Hr as [Hrd Hs].
    rewrite (save_target_output _ _ HO) in Hs.
    split.
    + intros [= -> ->]. repeat split; trivial.
      * destruct (fsA !! key_of p) as [[] |]; congruence.
      * destruct (fsA !! key_of p) as [[] |]; congruence.
    + intros (_ & Hrd' & -> & Hk). rewrite Hrd in Hrd'. injection Hrd' as ->.
      destruct (fsA !! key_of p) as [[] |]; congruence.
  - split; [discriminate |]. intros (_ & Hrd & -> & Hk). exfalso.
    assert (Hok : render_outcome fsA p (out_of p) font_size color position
                  = Ok (key_of p, data)).
    { apply render_outcome_Ok. split; [exact Hrd |].
      rewrite (save_target_output _ _ HO).
      destruct (fsA !! key_of p) as [[] |]; congruence. }
    congruence.
Qed.

Section Overlaid.

Variables (done : list string) (fs : gmap (list string) node).
Hypothesis Hov : overlaid_on done fs.

Lemma overlaid_short k :
  (length k <= length D + 1)%nat -> fs !! k = fsA !! k.
Proof.
  intros Hk. destruct (Hov k) as [[H _] | (p & data & _ & Hw & _)]; [exact H |].
  apply writes_Some in Hw as (_ & _ & -> & _).
  rewrite length_app in Hk. cbn in Hk. lia.
Qed.

Lemma overlaid_output_dir : lookup_path fs (D ++ [X]) = Some Dir.
Proof.
  rewrite <- HO. apply lookup_path_agree. intros k Hk. apply overlaid_short.
  rewrite length_app in Hk. cbn in Hk. lia.
Qed.

Lemma overlaid_stat p : input_like input_dir p -> stat fs p = stat fsA p.
Proof.
  intros [Hne (n & Hn)]. unfold stat. rewrite Hn.
  destruct (String.eqb p ""); [reflexivity |].
  apply lookup_path_agree. intros k Hk. apply overlaid_short.
  rewrite length_app in Hk. cbn in Hk. lia.
Qed.

Lemma overlaid_is_file p : input_like input_dir p -> is_file fs p = is_file fsA p.
Proof. intros H. unfold is_file. now rewrite overlaid_stat. Qed.

Lemma overlaid_Dir k : fs !! k = Some Dir <-> fsA !! k = Some Dir.
Proof.
  destruct (Hov k) as [[-> _] | (p & data & _ & Hw & ->)]; [reflexivity |].
  apply writes_Some in Hw as (_ & _ & -> & Hk). split; [discriminate | tauto].
Qed.

Lemma overlaid_save_target p : save_target fs (out_of p) = save_target fsA (out_of p).
Proof.
  rewrite (save_target_output _ _ overlaid_output_dir), (save_target_output _ _ HO).
  pose proof (overlaid_Dir (key_of p)) as Hd.
  destruct (fs !! key_of p) as [[] |], (fsA !! key_of p) as [[] |];
    try reflexivity; try (now destruct (proj1 Hd eq_refl));
    try (now destruct (proj2 Hd eq_refl)); exfalso;
    first [ specialize (proj1 Hd eq_refl); discriminate
          | specialize (proj2 Hd eq_refl); discriminate ].
Qed.

Lemma overlaid_render p :
  input_like input_dir p ->
  render_outcome fs p (out_of p) font_size color position
  = render_outcome fsA p (out_of p) font_size color position.
Proof.
  intros Hp. unfold render_outcome, watermark_text_of, exif_outcome, open_outcome.
  now rewrite (overlaid_stat _ Hp), overlaid_save_target.
Qed.

End Overlaid.

Lemma overlaid_equiv done done' fs :
  (forall p, p ∈ done <-> p ∈ done') ->
  overlaid_on done fs -> overlaid_on done' fs.
Proof.
  intros Heq Hov k. destruct (Hov k) as [[H Hno] | (p & data & Hp & Hw & Hk)].
  - left. split; [exact H |]. intros p data Hp. apply Hno. now apply Heq.
  - right. exists p, data. split; [now apply Heq | auto].
Qed.

Lemma overlaid_start : overlaid_on [] fsA.
Proof. intros k. left. split; [reflexivity |]. intros p data Hp. inversion Hp. Qed.

(** One round of the inner loop. *)
Lemma process_file_step done p c w :
  overlaid_on done (w_fs w) -> input_like input_dir p ->
  exists w' lines,
    process_file (output_dir_of input_dir) font_size color position p c w
    = (Ok (c + (if is_file fsA p then 1 else 0)), w')
    /\ overlaid_on (p :: done) (w_fs w')
    /\ w_console w' = w_console w ++ lines.
Proof.
  intros Hov Hp. unfold process_file, bind, isfile.
  rewrite (overlaid_is_file _ _ Hov _ Hp).
  destruct (is_file fsA p) eqn:Hfile.
  - fold (out_of p).
    destruct (add_watermark_eq p (out_of p) font_size color position w)
      as (w' & -> & Hfs & Hcon).
    exists w', (watermark_lines (w_fs w) p (out_of p) font_size color position).
    split; [reflexivity |]. split; [| exact Hcon].
    rewrite (overlaid_render _ _ Hov _ Hp) in Hfs.
    intros k.
    destruct (render_outcome fsA p (out_of p) font_size color position)
      as [[k0 data0] |] eqn:Hr.
    + assert (Hw : writes_of p = Some (k0, data0))
        by (unfold writes; now rewrite Hfile, Hr).
      rewrite Hfs. destruct (decide (k0 = k)) as [-> | Hne].
      * right. exists p, data0. rewrite lookup_insert_eq.
        repeat split; [left | exact Hw].
      * rewrite lookup_insert_ne by exact Hne.
        destruct (Hov k) as [[H Hno] | (p' & data & Hp' & Hw' & Hk)].
        -- left. split; [exact H |]. intros p' data [-> | Hin]%elem_of_cons.
           ++ rewrite Hw. congruence.
           ++ now apply Hno.
        -- right. exists p', data. split; [now right | auto].
    + assert (Hw : writes_of p = None) by (unfold writes; now rewrite Hfile, Hr).
      rewrite Hfs.
      destruct (Hov k) as [[H Hno] | (p' & data & Hp' & Hw' & Hk)].
      * left. split; [exact H |]. intros p' data [-> | Hin]%elem_of_cons.
        -- now rewrite Hw.
        -- now apply Hno.
      * right. exists p', data. split; [now right | auto].
  - exists w, []. cbn [ret]. rewrite Z.add_0_r, app_nil_r.
    split; [reflexivity |]. split; [| reflexivity].
    assert (Hw : writes_of p = None) by (unfold writes; now rewrite Hfile).
    intros k. destruct (Hov k) as [[H Hno] | (p' & data & Hp' & Hw' & Hk)].
    + left. split; [exact H |]. intros p' data [-> | Hin]%elem_of_cons.
      * now rewrite Hw.
      * now apply Hno.
    + right. exists p', data. split; [now right | auto].
Qed.

(** The inner loop. *)
Lemma process_files_run paths done c w :
  overlaid_on done (w_fs w) -> Forall (input_like input_dir) paths ->
  exists w' lines,
    for_each paths
      (process_file (output_dir_of input_dir) font_size color position) c w
    = (Ok (c + Z.of_nat (length (List.filter (is_file fsA) paths))), w')
    /\ overlaid_on (paths ++ done) (w_fs w')
    /\ w_console w' = w_console w ++ lines.
Proof.
  revert done c w. induction paths as [| p paths IH]; intros done c w Hov Hall.
  - exists w, []. cbn. rewrite Z.add_0_r, app_nil_r. auto.
  - apply Forall_cons in Hall as [Hp Hall].
    destruct (process_file_step done p c w Hov Hp) as (w1 & l1 & Hstep & Hov1 & Hc1).
    destruct (IH (p :: done) (c + (if is_file fsA p then 1 else 0)) w1 Hov1 Hall)
      as (w2 & l2 & Hrun & Hov2 & Hc2).
    exists w2, (l1 ++ l2). cbn [for_each]. unfold bind at 1. rewrite Hstep, Hrun.
    split; [| split].
    + f_equal. f_equal. cbn [List.filter].
      destruct (is_file fsA p); cbn [length]; lia.
    + eapply overlaid_equiv; [| exact Hov2].
      intros q. rewrite !elem_of_app, !elem_of_cons. tauto.
    + now rewrite Hc2, Hc1, app_assoc.
Qed.

(** *** What [glob] returns to the driver *)

Hypothesis Hmagic : PosixPath.has_magic input_dir = false.

Abbreviation dn := (dirname_of input_dir).

Lemma listdir_resolve fs dirname :
  listdir fs dirname
  = match lookup_path fs (PosixPath.resolve dirname) with
    | Some Dir => children fs (PosixPath.resolve dirname)
    | _ => []
    end.
Proof.
  unfold listdir, stat.
  destruct (String.eqb_spec dirname "") as [-> | Hne]; [reflexivity |].
  apply String.eqb_neq in Hne. now rewrite Hne.
Qed.

(** The names [glob] keeps for a pattern of the driver. *)
Lemma glob1_pattern fs ext :
  PosixPath.ishidden ext = false ->
  glob1 fs dn ext
  = match lookup_path fs D with
    | Some Dir =>
        List.filter (PosixPath.fnmatch ext)
          (List.filter (fun x => negb (PosixPath.ishidden x)) (children fs D))
    | _ => []
    end.
Proof.
  intros Hh. unfold glob1. rewrite Hh, listdir_resolve.
  rewrite PathFacts.resolve_dirname_of.
  now destruct (lookup_path fs D) as [[] |].
Qed.

Lemma glob_paths_pattern fs ext :
  driver_pattern ext ->
  glob_paths fs (PosixPath.join input_dir ext)
  = map (PosixPath.join dn) (glob1 fs dn ext).
Proof.
  intros (Hsep & Hm & Hh). unfold glob_paths.
  rewrite (PathFacts.split_join_pattern _ _ Hsep).
  rewrite (PathFacts.has_magic_join _ _ Hm). cbn [negb].
  now rewrite (PathFacts.has_magic_dirname_of _ Hmagic).
Qed.

Lemma elem_of_glob_paths fs ext p :
  driver_pattern ext ->
  p ∈ glob_paths fs (PosixPath.join input_dir ext) <->
  lookup_path fs D = Some Dir
  /\ exists n, p = PosixPath.join dn n
             /\ valid_name n = true /\ is_Some (fs !! (D ++ [n]))
             /\ PosixPath.ishidden n = false
             /\ PosixPath.fnmatch ext n = true.
Proof.
  intros Hpat. rewrite (glob_paths_pattern _ _ Hpat), elem_of_map.
  rewrite (glob1_pattern _ _ (proj2 (proj2 Hpat))).
  destruct (lookup_path fs D) as [[data |] |].
  - split; [intros (n & _ & Hn); inversion Hn | now intros [? _]].
  - split.
    + intros (n & -> & Hn). split; [reflexivity |]. exists n.
      apply elem_of_filter in Hn as [Hf Hn].
      apply elem_of_filter in Hn as [Hh Hn].
      apply elem_of_children in Hn as [Hv Hs].
      apply negb_true_iff in Hh. auto.
    + intros [_ (n & -> & Hv & Hs & Hh & Hf)]. exists n. split; [reflexivity |].
      apply elem_of_filter. split; [exact Hf |].
      apply elem_of_filter. split; [now rewrite Hh |].
      now apply elem_of_children.
  - split; [intros (n & _ & Hn); inversion Hn | now intros [? _]].
Qed.

Lemma glob_paths_input_like fs ext :
  driver_pattern ext ->
  Forall (input_like input_dir) (glob_paths fs (PosixPath.join input_dir ext)).
Proof.
  intros Hpat. apply Forall_forall. intros p Hp.
  apply (elem_of_glob_paths _ _ _ Hpat) in Hp as [_ (n & -> & Hv & _)].
  split.
  - apply PathFacts.join_nonempty. now apply PathFacts.valid_name_inv in Hv.
  - exists n. now rewrite (PathFacts.resolve_join _ _ Hv), PathFacts.resolve_dirname_of.
Qed.

Lemma join_dn_inj n1 n2 :
  valid_name n1 = true -> valid_name n2 = true ->
  PosixPath.join dn n1 = PosixPath.join dn n2 -> n1 = n2.
Proof.
  intros (_ & H1 & _)%PathFacts.valid_name_inv (_ & H2 & _)%PathFacts.valid_name_inv Heq.
  apply (f_equal PosixPath.basename) in Heq.
  now rewrite !PathFacts.basename_join in Heq.
Qed.

Lemma NoDup_glob_paths fs ext :
  driver_pattern ext -> NoDup (glob_paths fs (PosixPath.join input_dir ext)).
Proof.
  intros Hpat. rewrite (glob_paths_pattern _ _ Hpat).
  rewrite (glob1_pattern _ _ (proj2 (proj2 Hpat))).
  destruct (lookup_path fs D) as [[data |] |]; try constructor.
  apply NoDup_map_inj.
  - intros n1 n2 H1 H2.
    apply elem_of_filter in H1 as [_ H1]. apply elem_of_filter in H1 as [_ H1].
    apply elem_of_filter in H2 as [_ H2]. apply elem_of_filter in H2 as [_ H2].
    apply elem_of_children in H1 as [H1 _]. apply elem_of_children in H2 as [H2 _].
    now apply join_dn_inj.
  - apply NoDup_filter, NoDup_filter, NoDup_children.
Qed.

(** Two file systems with the same entries in the input directory give
    the same paths, in some order. *)
Lemma glob_paths_agree fs1 fs2 ext :
  driver_pattern ext ->
  lookup_path fs1 D = lookup_path fs2 D ->
  (forall n, is_Some (fs1 !! (D ++ [n])) <-> is_Some (fs2 !! (D ++ [n]))) ->
  glob_paths fs1 (PosixPath.join input_dir ext)
  ≡ₚ glob_paths fs2 (PosixPath.join input_dir ext).
Proof.
  intros Hpat HD Hn. apply NoDup_Permutation; try now apply NoDup_glob_paths.
  intros p. rewrite !(elem_of_glob_paths _ _ _ Hpat), HD.
  now setoid_rewrite Hn.
Qed.

Lemma overlaid_glob_paths done fs ext :
  overlaid_on done fs -> driver_pattern ext ->
  glob_paths fs (PosixPath.join input_dir ext)
  ≡ₚ glob_paths fsA (PosixPath.join input_dir ext).
Proof.
  intros Hov Hpat. apply (glob_paths_agree _ _ _ Hpat).
  - apply lookup_path_agree. intros k Hk.
    apply (overlaid_short _ _ Hov). lia.
  - intros n. rewrite (overlaid_short _ _ Hov); [reflexivity |].
    rewrite length_app. cbn. lia.
Qed.

(** The outer loop. *)
Lemma process_patterns_run exts done c w :
  overlaid_on done (w_fs w) -> Forall driver_pattern exts ->
  exists w' lines,
    for_each exts
      (process_pattern input_dir (output_dir_of input_dir)
                       font_size color position) c w
    = (Ok (c + Z.of_nat (length (flat_map
             (fun ext => List.filter (is_file fsA)
                           (glob_paths fsA (PosixPath.join input_dir ext)))
             exts))), w')
    /\ overlaid_on
         (flat_map (fun ext => glob_paths fsA (PosixPath.join input_dir ext)) exts
          ++ done) (w_fs w')
    /\ w_console w' = w_console w ++ lines.
Proof.
  revert done c w. induction exts as [| ext exts IH]; intros done c w Hov Hall.
  - exists w, []. cbn. rewrite Z.add_0_r, app_nil_r. auto.
  - apply Forall_cons in Hall as [Hpat Hall].
    pose proof (overlaid_glob_paths _ _ _ Hov Hpat) as Hperm.
    destruct (process_files_run
                (glob_paths (w_fs w) (PosixPath.join input_dir ext)) done c
                (log (EvGlob (PosixPath.join input_dir ext)) w) Hov
                (glob_paths_input_like _ _ Hpat))
      as (w1 & l1 & Hrun1 & Hov1 & Hc1).
    assert (Hov1' : overlaid_on
              (glob_paths fsA (PosixPath.join input_dir ext) ++ done) (w_fs w1)).
    { eapply overlaid_equiv; [| exact Hov1].
      intros q. rewrite !elem_of_app. now rewrite Hperm. }
    destruct (IH _ (c + Z.of_nat (length (List.filter (is_file fsA)
                 (glob_paths (w_fs w) (PosixPath.join input_dir ext))))) w1
                Hov1' Hall) as (w2 & l2 & Hrun2 & Hov2 & Hc2).
    exists w2, (l1 ++ l2). cbn [for_each]. unfold bind at 1.
    unfold process_pattern at 1, bind, glob. rewrite Hrun1, Hrun2.
    split; [| split].
    + f_equal. f_equal. cbn [flat_map]. rewrite length_app.
      rewrite (Permutation_length (Permutation_filter _ _ _ Hperm)). lia.
    + eapply overlaid_equiv; [| exact Hov2].
      intros q. cbn [flat_map]. rewrite !elem_of_app. tauto.
    + rewrite Hc2, Hc1. cbn. now rewrite app_assoc.
Qed.

End Driver.

(** *** The whole run *)

Section Run.

Context {P : Platform}.
Variables (input_dir : string) (font_size : Z) (color position : string).

Abbreviation D := (PosixPath.resolve input_dir).
Abbreviation X := (PosixPath.basename input_dir +:+ "_watermark").
Abbreviation O := (PosixPath.resolve (output_dir_of input_dir)).

Lemma image_extensions_patterns : Forall driver_pattern image_extensions.
Proof. repeat constructor. Qed.

Lemma is_dir_inv fs path :
  is_dir fs path = true ->
  path <> "" /\ lookup_path fs (PosixPath.resolve path) = Some Dir.
Proof.
  unfold is_dir, stat. destruct (String.eqb_spec path ""); [discriminate |].
  destruct (lookup_path fs _) as [[] |]; try discriminate. auto.
Qed.

Lemma set_fs_same w : set_fs (w_fs w) w = w.
Proof. now destruct w. Qed.

Lemma makedirs_output_dir w :
  is_dir (w_fs w) input_dir = true ->
  (forall data, w_fs w !! O <> Some (File data)) ->
  makedirs (output_dir_of input_dir) w
  = (Ok tt, set_fs (with_output_dir input_dir (w_fs w))
                   (log (EvMakedirs (output_dir_of input_dir)) w)).
Proof.
  intros [_ HD]%is_dir_inv Hfile. unfold makedirs, with_output_dir.
  destruct (String.eqb_spec (output_dir_of input_dir) "") as [He |].
  { apply PathFacts.join_nonempty in He; [destruct He |].
    pose proof (PathFacts.output_dir_name_valid input_dir) as Hv.
    now apply PathFacts.valid_name_inv in Hv. }
  pose proof (PathFacts.resolve_output_dir input_dir) as HO.
  rewrite HO in *.
  rewrite (mkdirs_entry (w_fs w) [] D X HD (or_introl eq_refl)).
  cbn [app]. destruct (w_fs w !! (D ++ [X])) as [[data |] |] eqn:Hl.
  - now destruct (Hfile data).
  - reflexivity.
  - reflexivity.
Qed.

(** A regular file with the name of the output directory stops the run
    before anything is read. *)
Lemma process_directory_blocked w data :
  is_dir (w_fs w) input_dir = true ->
  w_fs w !! O = Some (File data) ->
  process_directory input_dir font_size color position w
  = (Raise (FileExistsError (output_dir_of input_dir)),
     log (EvMakedirs (output_dir_of input_dir)) w).
Proof.
  intros [_ HD]%is_dir_inv Hfile. unfold process_directory, bind, makedirs.
  destruct (String.eqb_spec (output_dir_of input_dir) "") as [He |].
  { apply PathFacts.join_nonempty in He; [destruct He |].
    pose proof (PathFacts.output_dir_name_valid input_dir) as Hv.
    now apply PathFacts.valid_name_inv in Hv. }
  pose proof (PathFacts.resolve_output_dir input_dir) as HO.
  rewrite HO in *.
  rewrite (mkdirs_entry (w_fs w) [] D X HD (or_introl eq_refl)).
  cbn [app]. rewrite Hfile. reflexivity.
Qed.

Lemma with_output_dir_lookup fs k :
  (forall data, fs !! O <> Some (File data)) ->
  with_output_dir input_dir fs !! k = if decide (k = O) then Some Dir else fs !! k.
Proof.
  intros Hfile. unfold with_output_dir.
  destruct (fs !! O) as [[data |] |] eqn:Hl.
  - now destruct (Hfile data).
  - case_decide; [now subst | reflexivity].
  - case_decide; [subst; apply lookup_insert_eq | now rewrite lookup_insert_ne].
Qed.

Lemma with_output_dir_input_dir fs :
  (forall data, fs !! O <> Some (File data)) ->
  lookup_path (with_output_dir input_dir fs) D = lookup_path fs D.
Proof.
  intros Hfile. apply lookup_path_agree. intros k Hk.
  rewrite (with_output_dir_lookup _ _ Hfile). case_decide; [| reflexivity].
  subst k. rewrite PathFacts.resolve_output_dir, length_app in Hk. cbn in Hk. lia.
Qed.

Lemma with_output_dir_there fs :
  lookup_path fs D = Some Dir ->
  (forall data, fs !! O <> Some (File data)) ->
  lookup_path (with_output_dir input_dir fs) (D ++ [X]) = Some Dir.
Proof.
  intros HD Hfile.
  rewrite lookup_path_snoc, (with_output_dir_input_dir _ Hfile), HD.
  rewrite (with_output_dir_lookup _ _ Hfile), <- PathFacts.resolve_output_dir.
  now rewrite decide_True.
Qed.

(** [process_directory] on an existing directory whose name has no
    wildcard, with no file where the output directory goes: the run ends
    normally, the file system is the initial one with the output
    directory and the outputs of the paths found, and the last line
    counts the files found. *)
Lemma process_directory_run w :
  PosixPath.has_magic input_dir = false ->
  is_dir (w_fs w) input_dir = true ->
  (forall data, w_fs w !! O <> Some (File data)) ->
  exists w' lines,
    process_directory input_dir font_size color position w = (Ok tt, w')
    /\ overlaid (with_output_dir input_dir (w_fs w)) input_dir font_size color position
                (globbed (with_output_dir input_dir (w_fs w)) input_dir) (w_fs w')
    /\ w_console w'
       = w_console w ++ lines
         ++ [report (Z.of_nat (length (enumerated (with_output_dir input_dir (w_fs w))
                                                  input_dir)))
                    (output_dir_of input_dir)].
Proof.
  intros Hmagic Hdir Hfile.
  pose proof (is_dir_inv _ _ Hdir) as [_ HD].
  pose proof (with_output_dir_there _ HD Hfile) as HO.
  unfold process_directory, bind. rewrite (makedirs_output_dir _ Hdir Hfile).
  destruct (process_patterns_run input_dir font_size color position
              (with_output_dir input_dir (w_fs w)) HO Hmagic image_extensions [] 0
              (set_fs (with_output_dir input_dir (w_fs w))
                      (log (EvMakedirs (output_dir_of input_dir)) w))
              (overlaid_start _ _ _ _ _) image_extensions_patterns)
    as (w1 & lines & -> & Hov & Hcon).
  eexists _, lines. split; [reflexivity |]. split.
  - cbn [print put_line w_fs]. rewrite app_nil_r in Hov. exact Hov.
  - cbn [print put_line w_console]. rewrite Hcon. cbn [set_fs log w_console].
    now rewrite <- app_assoc.
Qed.

End Run.

(** *** Names with one of the extensions *)

Section Extensions.

Import PyStr PosixPath.




Lemma qualifying_inv n :
  qualifying n = true ->
  ishidden n = false
  /\ exists pat, pat ∈ image_extensions /\ fnmatch pat n = true.
Proof.
  unfold qualifying. intros [Hh Hex]%andb_prop.
  apply negb_true_iff in Hh. apply existsb_exists in Hex as (pat & Hin & Hm).
  split; [exact Hh |]. exists pat. now rewrite list_elem_of_In.
Qed.

Lemma qualifying_intro n pat :
  ishidden n = false -> pat ∈ image_extensions -> fnmatch pat n = true ->
  qualifying n = true.
Proof.
  intros Hh Hin Hm. unfold qualifying. rewrite Hh. cbn [negb andb].
  apply existsb_exists. exists pat. now rewrite <- list_elem_of_In.
Qed.




End Extensions.

(** *** The run, seen from the initial file system *)

Section Initial.

Context {P : Platform}.
Variables (input_dir : string) (font_size : Z) (color position : string).

Abbreviation D := (PosixPath.resolve input_dir).
Abbreviation X := (PosixPath.basename input_dir +:+ "_watermark").
Abbreviation O := (PosixPath.resolve (output_dir_of input_dir)).
Abbreviation dn := (dirname_of input_dir).
Abbreviation out_of p := (output_path_of input_dir p).

Hypothesis Hmagic : PosixPath.has_magic input_dir = false.

(** The path of an entry of the input directory names the entry. *)
Lemma stat_entry fs n :
  valid_name n = true -> lookup_path fs D = Some Dir ->
  stat fs (PosixPath.join dn n) = fs !! (D ++ [n]).
Proof.
  intros Hv HD. unfold stat.
  destruct (String.eqb_spec (PosixPath.join dn n) "") as [He |].
  { apply PathFacts.join_nonempty in He; [destruct He |].
    now apply PathFacts.valid_name_inv in Hv. }
  rewrite (PathFacts.resolve_join _ _ Hv), PathFacts.resolve_dirname_of.
  now rewrite lookup_path_snoc, HD.
Qed.

Lemma is_file_entry fs n :
  valid_name n = true -> lookup_path fs D = Some Dir ->
  is_file fs (PosixPath.join dn n) = true
  <-> exists data, fs !! (D ++ [n]) = Some (File data).
Proof.
  intros Hv HD. unfold is_file. rewrite (stat_entry _ _ Hv HD).
  destruct (fs !! (D ++ [n])) as [[data |] |].
  - split; [eauto | reflexivity].
  - split; [discriminate | now intros [? ?]].
  - split; [discriminate | now intros [? ?]].
Qed.

Lemma elem_of_enumerated_pattern fs ext p :
  driver_pattern ext -> lookup_path fs D = Some Dir ->
  p ∈ List.filter (is_file fs) (glob_paths fs (PosixPath.join input_dir ext))
  <-> exists n data,
        p = PosixPath.join dn n /\ valid_name n = true
        /\ PosixPath.ishidden n = false /\ PosixPath.fnmatch ext n = true
        /\ fs !! (D ++ [n]) = Some (File data).
Proof.
  intros Hpat HD.
  rewrite elem_of_filter, (elem_of_glob_paths input_dir Hmagic _ _ _ Hpat).
  split.
  - intros [Hf [_ (n & -> & Hv & _ & Hh & Hm)]].
    apply (is_file_entry _ _ Hv HD) in Hf as [data Hdata].
    now exists n, data.
  - intros (n & data & -> & Hv & Hh & Hm & Hdata). split.
    + apply (is_file_entry _ _ Hv HD). eauto.
    + split; [exact HD |]. exists n. rewrite Hdata. eauto 10.
Qed.

(** The files the driver finds are the entries of the input directory
    that are regular files with a qualifying name. *)
Lemma elem_of_enumerated fs p :
  lookup_path fs D = Some Dir ->
  p ∈ enumerated fs input_dir
  <-> exists n data,
        p = PosixPath.join dn n /\ valid_name n = true
        /\ qualifying n = true /\ fs !! (D ++ [n]) = Some (File data).
Proof.
  intros HD. unfold enumerated. rewrite elem_of_flat_map. split.
  - intros (ext & Hext & Hp).
    pose proof (proj1 (Forall_forall _ _) image_extensions_patterns _ Hext) as Hpat.
    apply (elem_of_enumerated_pattern _ _ _ Hpat HD) in Hp
      as (n & data & -> & Hv & Hh & Hm & Hdata).
    exists n, data. repeat split; trivial. now apply (qualifying_intro _ ext).
  - intros (n & data & -> & Hv & [Hh (ext & Hext & Hm)]%qualifying_inv & Hdata).
    exists ext. split; [exact Hext |].
    pose proof (proj1 (Forall_forall _ _) image_extensions_patterns _ Hext) as Hpat.
    apply (elem_of_enumerated_pattern _ _ _ Hpat HD). now exists n, data.
Qed.

Lemma elem_of_enumerated_globbed fs p :
  p ∈ enumerated fs input_dir
  <-> p ∈ globbed fs input_dir /\ is_file fs p = true.
Proof.
  unfold enumerated, globbed. rewrite !elem_of_flat_map. split.
  - intros (ext & Hext & [Hf Hp]%elem_of_filter). eauto.
  - intros [(ext & Hext & Hp) Hf]. exists ext. now rewrite elem_of_filter.
Qed.

Lemma NoDup_enumerated_pattern fs ext :
  driver_pattern ext ->
  NoDup (List.filter (is_file fs) (glob_paths fs (PosixPath.join input_dir ext))).
Proof. intros Hpat. now apply NoDup_filter, NoDup_glob_paths. Qed.

(** Two file systems with the same regular files in the input directory
    give the driver the same files, in some order. *)
Lemma enumerated_agree fs1 fs2 :
  lookup_path fs1 D = Some Dir -> lookup_path fs2 D = Some Dir ->
  (forall n data, fs1 !! (D ++ [n]) = Some (File data)
                  <-> fs2 !! (D ++ [n]) = Some (File data)) ->
  enumerated fs1 input_dir ≡ₚ enumerated fs2 input_dir.
Proof.
  intros HD1 HD2 Hsame. unfold enumerated.
  pose proof image_extensions_patterns as Hall.
  induction image_extensions as [| ext exts IH]; [reflexivity |].
  apply Forall_cons in Hall as [Hpat Hall]. cbn [flat_map].
  apply Permutation_app; [| now apply IH].
  apply NoDup_Permutation; try now apply NoDup_enumerated_pattern.
  intros p. rewrite !(elem_of_enumerated_pattern _ _ _ Hpat) by assumption.
  now setoid_rewrite Hsame.
Qed.

(** What the renderer makes of a file depends on the file only. *)
Lemma rendered_agree fs1 fs2 p out :
  stat fs1 p = stat fs2 p ->
  rendered fs1 p out font_size color position
  = rendered fs2 p out font_size color position.
Proof.
  intros Hs. unfold rendered, watermark_text_of, exif_outcome, open_outcome.
  now rewrite Hs.
Qed.



Lemma produces_key_length fs p k data :
  produces fs input_dir font_size color position p k data ->
  length k = (length D + 2)%nat.
Proof.
  intros (_ & _ & -> & _). rewrite PathFacts.resolve_output_path, length_app.
  reflexivity.
Qed.

Lemma output_dir_length : length O = (length D + 1)%nat.
Proof. rewrite PathFacts.resolve_output_dir, length_app. reflexivity. Qed.

(** *** From the file system with the output directory to the initial one *)

Variable fs0 : gmap (list string) node.
Hypothesis Hdir : is_dir fs0 input_dir = true.
Hypothesis Hfile : forall data, fs0 !! O <> Some (File data).

Abbreviation fsA := (with_output_dir input_dir fs0).

Lemma initial_input_dir : lookup_path fs0 D = Some Dir.
Proof. now apply is_dir_inv in Hdir. Qed.

Lemma prepared_input_dir : lookup_path fsA D = Some Dir.
Proof. rewrite (with_output_dir_input_dir _ _ Hfile). apply initial_input_dir. Qed.

Lemma prepared_output_dir : lookup_path fsA (D ++ [X]) = Some Dir.
Proof. apply with_output_dir_there; [apply initial_input_dir | exact Hfile]. Qed.

Lemma prepared_file_entry n data :
  fsA !! (D ++ [n]) = Some (File data) <-> fs0 !! (D ++ [n]) = Some (File data).
Proof.
  rewrite (with_output_dir_lookup _ _ _ Hfile). case_decide as He; [| reflexivity].
  rewrite He. split; [discriminate | intros H; now apply Hfile in H].
Qed.

Lemma prepared_long k :
  length k <> (length D + 1)%nat -> fsA !! k = fs0 !! k.
Proof.
  intros Hk. rewrite (with_output_dir_lookup _ _ _ Hfile).
  case_decide as He; [| reflexivity]. subst k. now rewrite output_dir_length in Hk.
Qed.

Lemma enumerated_prepared : enumerated fsA input_dir ≡ₚ enumerated fs0 input_dir.
Proof.
  apply enumerated_agree;
    auto using prepared_input_dir, initial_input_dir, prepared_file_entry.
Qed.

(** What the loops write, in terms of the initial file system. *)
Lemma writes_prepared p k data :
  p ∈ globbed fsA input_dir
  /\ writes fsA input_dir font_size color position p = Some (k, data)
  <-> produces fs0 input_dir font_size color position p k data.
Proof.
  rewrite (writes_Some _ _ _ _ _ prepared_output_dir).
  rewrite <- PathFacts.resolve_output_path.
  split.
  - intros (Hg & Hf & Hr & -> & Hk).
    assert (Hp : p ∈ enumerated fsA input_dir)
      by (apply elem_of_enumerated_globbed; auto).
    pose proof Hp as Hp'.
    apply (elem_of_enumerated _ _ prepared_input_dir) in Hp'
      as (n & bytes & -> & Hv & Hq & Hn).
    repeat split.
    + now rewrite <- enumerated_prepared.
    + rewrite <- Hr. apply rendered_agree.
      rewrite !stat_entry; auto using prepared_input_dir, initial_input_dir.
      rewrite Hn. apply prepared_file_entry, Hn.
    + rewrite <- prepared_long; [exact Hk |].
      rewrite PathFacts.resolve_output_path, length_app. cbn. lia.
  - intros (Hp & Hr & -> & Hk).
    rewrite <- enumerated_prepared in Hp. pose proof Hp as Hp'.
    apply elem_of_enumerated_globbed in Hp as [Hg Hf].
    apply (elem_of_enumerated _ _ prepared_input_dir) in Hp'
      as (n & bytes & -> & Hv & Hq & Hn).
    repeat split; trivial.
    + rewrite <- Hr. apply rendered_agree.
      rewrite !stat_entry; auto using prepared_input_dir, initial_input_dir.
      rewrite Hn. symmetry. apply prepared_file_entry, Hn.
    + rewrite prepared_long; [exact Hk |].
      rewrite PathFacts.resolve_output_path, length_app. cbn. lia.
Qed.

Lemma overlaid_run_result fs' :
  overlaid fsA input_dir font_size color position (globbed fsA input_dir) fs' ->
  run_result fs0 input_dir font_size color position fs'.
Proof.
  intros Hov. split.
  - destruct (Hov O) as [[-> _] | (p & data & Hp & Hw & _)].
    + rewrite (with_output_dir_lookup _ _ _ Hfile). now rewrite decide_True.
    + apply (conj Hp), writes_prepared, produces_key_length in Hw.
      rewrite output_dir_length in Hw. lia.
  - intros k HkO. destruct (Hov k) as [[Hk Hno] | (p & data & Hp & Hw & Hk)].
    + left. split.
      * rewrite Hk, (with_output_dir_lookup _ _ _ Hfile). now rewrite decide_False.
      * intros p data Hprod. apply writes_prepared in Hprod as [Hp Hw].
        now apply (Hno p data Hp).
    + right. exists p, data. split; [| exact Hk]. now apply writes_prepared.
Qed.

End Initial.

(** [process_directory] on an existing directory whose name has no
    wildcard, with no file where the output directory goes: the run ends
    normally, leaves the output directory and the outputs, and reports
    the number of files it found. *)
Lemma process_directory_result {P : Platform} (input_dir : string)
    (font_size : Z) (color position : string) (w : world) :
  PosixPath.has_magic input_dir = false ->
  is_dir (w_fs w) input_dir = true ->
  (forall data,
      w_fs w !! PosixPath.resolve (output_dir_of input_dir) <> Some (File data)) ->
  exists w' lines,
    process_directory input_dir font_size color position w = (Ok tt, w')
    /\ run_result (w_fs w) input_dir font_size color position (w_fs w')
    /\ w_console w'
       = w_console w ++ lines
         ++ [report (Z.of_nat (length (enumerated (w_fs w) input_dir)))
                    (output_dir_of input_dir)].
Proof.
  intros Hmagic Hdir Hfile.
  destruct (process_directory_run input_dir font_size color position w
              Hmagic Hdir Hfile) as (w' & lines & Hrun & Hov & Hcon).
  exists w', lines. split; [exact Hrun |]. split.
  - now apply overlaid_run_result.
  - rewrite Hcon.
    now rewrite (Permutation_length
                   (enumerated_prepared input_dir Hmagic (w_fs w) Hdir Hfile)).
Qed.

(** *** What a run leaves *)

Section RunResult.

Context {P : Platform}.
Variables (input_dir : string) (font_size : Z) (color position : string).

Abbreviation D := (PosixPath.resolve input_dir).
Abbreviation X := (PosixPath.basename input_dir +:+ "_watermark").
Abbreviation O := (PosixPath.resolve (output_dir_of input_dir)).
Abbreviation dn := (dirname_of input_dir).
Abbreviation out_of p := (output_path_of input_dir p).

Hypothesis Hmagic : PosixPath.has_magic input_dir = false.

Variables fs fs' : gmap (list string) node.
Hypothesis HD : lookup_path fs D = Some Dir.
Hypothesis Hres : run_result fs input_dir font_size color position fs'.







End RunResult.

(** *** Counting the files found *)

Section Counting.

Context {P : Platform}.
Variable input_dir : string.
Hypothesis Hmagic : PosixPath.has_magic input_dir = false.

Abbreviation D := (PosixPath.resolve input_dir).
Abbreviation dn := (dirname_of input_dir).



End Counting.

(** ** The claims about the driver *)

(** C9: the count the driver reports is the number of matching files it
    found, whether or not their watermarking succeeded: on an existing
    directory (no wildcard in its name, no file where the output directory
    goes) the run ends normally and its last line reports the number of
    enumerated files.  In the witness the only file found is not an
    image: nothing is written for it, and the count is 1. *)
Theorem process_directory_counts_attempts {P : Platform} (input_dir : string)
    (font_size : Z) (color position : string) (w : world) :
  PosixPath.has_magic input_dir = false ->
  is_dir (w_fs w) input_dir = true ->
  (forall data,
      w_fs w !! PosixPath.resolve (output_dir_of input_dir) <> Some (File data)) ->
  exists w' lines,
    process_directory input_dir font_size color position w = (Ok tt, w')
    /\ w_console w'
       = w_console w ++ lines
         ++ [report (Z.of_nat (length (enumerated (w_fs w) input_dir)))
                    (output_dir_of input_dir)].
Proof.
  intros Hmagic Hdir Hfile.
  destruct (process_directory_result input_dir font_size color position w
              Hmagic Hdir Hfile) as (w' & lines & Hrun & _ & Hcon).
  now exists w', lines.
Qed.

Lemma process_directory_counts_attempts_witness :
  (exists w' lines,
     process_directory (P := Demo.toy) "broken" 36 "white" "bottom-right"
                       Demo.broken = (Ok tt, w')
     /\ w_console w'
        = w_console Demo.broken ++ lines
          ++ [report (Z.of_nat (length (enumerated (P := Demo.toy)
                                          (w_fs Demo.broken) "broken")))
                     (output_dir_of "broken")])
  /\ report (Z.of_nat (length (enumerated (P := Demo.toy)
                                 (w_fs Demo.broken) "broken")))
            (output_dir_of "broken")
     = newline +:+ "Processed 1 images. Output saved to: broken/broken_watermark"
  /\ rendered (P := Demo.toy) (w_fs Demo.broken) "broken/bad.jpg"
              (output_path_of "broken" "broken/bad.jpg") 36 "white"
              "bottom-right" = None.
Proof.
  split; [| split; vm_compute; reflexivity].
  apply (process_directory_counts_attempts (P := Demo.toy)).
  - reflexivity.
  - vm_compute. reflexivity.
  - intros data. vm_compute. discriminate.
Defined.







(** * Further properties of the script *)

(** ** Position calculator: a text that fits *)

(** X1: when the text and a margin of 20 pixels on both sides fit in the
    image (text_width + 40 <= img_width, text_height + 40 <= img_height),
    the rectangle of the text lies inside the image, at least 20 pixels
    from every edge, for every position keyword, known or not. *)
Theorem get_position_coordinates_inside (W H tw th : Z) (position : string) :
  tw + 40 <= W -> th + 40 <= H ->
  20 <= fst (get_position_coordinates W H tw th position)
  /\ fst (get_position_coordinates W H tw th position) + tw <= W - 20
  /\ 20 <= snd (get_position_coordinates W H tw th position)
  /\ snd (get_position_coordinates W H tw th position) + th <= H - 20.
Proof.
  intros Hw Hh. unfold get_position_coordinates.
  repeat match goal with
         | |- context [String.eqb position ?k] => destruct (String.eqb position k)
         end; cbn [fst snd]; dlia.
Qed.

Lemma get_position_coordinates_inside_witness :
  20 <= fst (get_position_coordinates 640 480 100 11 "center")
  /\ fst (get_position_coordinates 640 480 100 11 "center") + 100 <= 640 - 20
  /\ 20 <= snd (get_position_coordinates 640 480 100 11 "center")
  /\ snd (get_position_coordinates 640 480 100 11 "center") + 11 <= 480 - 20.
Proof.
  apply (get_position_coordinates_inside 640 480 100 11 "center"); lia.
Defined.

(** X2: [center] centres the text to the pixel: the gap on the left is the
    gap on the right or one pixel less, and so for top and bottom, whatever
    the sizes (also for a text larger than the image). *)
Theorem get_position_coordinates_center_balanced (W H tw th : Z) :
  fst (get_position_coordinates W H tw th "center")
  <= W - tw - fst (get_position_coordinates W H tw th "center")
  <= fst (get_position_coordinates W H tw th "center") + 1
  /\ snd (get_position_coordinates W H tw th "center")
     <= H - th - snd (get_position_coordinates W H tw th "center")
     <= snd (get_position_coordinates W H tw th "center") + 1.
Proof.
  cbn [get_position_coordinates String.eqb Ascii.eqb Bool.eqb fst snd]. dlia.
Qed.

(** ** Names of the outputs *)

Module NameFacts.
Import PyStr PosixPath.

Lemma all_char_app c a b : all_char c (a +:+ b) = all_char c a && all_char c b.
Proof.
  induction a as [| x a IH]; [reflexivity |].
  rewrite append_String. cbn [all_char]. now rewrite IH, andb_assoc.
Qed.

Lemma basename_trailing_sep d : endswith sep d = true -> basename d = "".
Proof.
  intros (d' & ->)%PathFacts.endswith_inv. unfold basename.
  now rewrite PathFacts.rsplit_app_sep.
Qed.

Lemma endswith_snoc c b : endswith c (b +:+ String c "") = true.
Proof.
  induction b as [| x b IH].
  - cbn. apply Ascii.eqb_refl.
  - rewrite append_String. cbn [endswith].
    destruct b; [exact IH |]. rewrite append_String in *. exact IH.
Qed.

Lemma startswith_no_sep n :
  contains sep n = false -> startswith sep n = false.
Proof.
  intros Hn. destruct (startswith sep n) eqn:Hs; [| reflexivity].
  apply PathFacts.startswith_contains in Hs. congruence.
Qed.

Lemma output_dir_name_no_sep d :
  contains sep (basename d +:+ "_watermark") = false.
Proof. now rewrite PathFacts.contains_app, PathFacts.basename_no_sep. Qed.

(** The name and the extension of [<name>_watermarked<ext>] are
    [<name>_watermarked] and [<ext>]. *)
Lemma splitext_name_output f :
  splitext_name (fst (splitext_name f) +:+ "_watermarked" +:+ snd (splitext_name f))
  = (fst (splitext_name f) +:+ "_watermarked", snd (splitext_name f)).
Proof.
  unfold splitext_name at 2 3 4 5.
  destruct (rsplit extsep f) as [[b a] |] eqn:Hr.
  - apply PathFacts.rsplit_Some in Hr as [-> Ha].
    destruct (all_char extsep b) eqn:Hb; cbn [fst snd].
    + rewrite append_Empty_r, append_assoc, append_String.
      unfold splitext_name.
      rewrite PathFacts.rsplit_app_sep
        by (now rewrite PathFacts.contains_app, Ha).
      now rewrite Hb.
    + rewrite <- append_assoc. unfold splitext_name.
      rewrite (PathFacts.rsplit_app_sep _ _ _ Ha).
      rewrite all_char_app, Hb. reflexivity.
  - apply PathFacts.rsplit_None in Hr. cbn [fst snd].
    rewrite append_Empty_r. unfold splitext_name.
    rewrite PathFacts.rsplit_no_sep; [reflexivity |].
    now rewrite PathFacts.contains_app, Hr.
Qed.

Lemma output_filename_no_sep f :
  contains sep f = false ->
  output_filename f
  = fst (splitext_name f) +:+ "_watermarked" +:+ snd (splitext_name f)
  /\ contains sep (output_filename f) = false.
Proof.
  intros Hf. split.
  - unfold output_filename. rewrite (PathFacts.splitext_no_sep _ Hf).
    now destruct (splitext_name f).
  - pose proof (PathFacts.output_filename_valid _ Hf) as Hv.
    now apply PathFacts.valid_name_inv in Hv.
Qed.

Lemma splitext_output_filename f :
  contains sep f = false ->
  splitext (output_filename f)
  = (fst (splitext f) +:+ "_watermarked", snd (splitext f)).
Proof.
  intros Hf. destruct (output_filename_no_sep _ Hf) as [Ho Hs].
  rewrite (PathFacts.splitext_no_sep _ Hs), (PathFacts.splitext_no_sep _ Hf), Ho.
  apply splitext_name_output.
Qed.


End NameFacts.

(** X3: the name of the output directory comes from the last component
    of the argument as it is written.  An input directory written with a
    trailing slash has an empty last component, and its output directory
    is [<input_dir>_watermark], that is the entry [_watermark] of the
    input directory itself; written without trailing slash it is
    [<input_dir>/<basename>_watermark].  In both cases it is an entry of
    the input directory. *)
Theorem output_dir_of_trailing_slash (input_dir : string) :
  output_dir_of input_dir
  = (if PyStr.endswith PosixPath.sep input_dir then input_dir +:+ "_watermark"
     else if String.eqb input_dir "" then "_watermark"
     else input_dir +:+ "/" +:+ PosixPath.basename input_dir +:+ "_watermark")
  /\ (PosixPath.basename input_dir = ""
      <-> input_dir = "" \/ PyStr.endswith PosixPath.sep input_dir = true)
  /\ PosixPath.resolve (output_dir_of input_dir)
     = PosixPath.resolve input_dir
       ++ [PosixPath.basename input_dir +:+ "_watermark"].
Proof.
  split; [| split; [| apply PathFacts.resolve_output_dir]].
  - destruct (PyStr.endswith PosixPath.sep input_dir) eqn:He.
    + unfold output_dir_of. rewrite (NameFacts.basename_trailing_sep _ He).
      unfold PosixPath.join. rewrite He, orb_true_r. reflexivity.
    + unfold output_dir_of, PosixPath.join.
      rewrite (NameFacts.startswith_no_sep _ (NameFacts.output_dir_name_no_sep _)).
      rewrite He. now destruct (String.eqb_spec input_dir "") as [-> |].
  - split.
    + unfold PosixPath.basename.
      destruct (PyStr.rsplit PosixPath.sep input_dir) as [[b a] |] eqn:Hr.
      * intros ->. right. apply PathFacts.rsplit_Some in Hr as [-> _].
        apply NameFacts.endswith_snoc.
      * intros ->. now left.
    + intros [-> | He]; [reflexivity | now apply NameFacts.basename_trailing_sep].
Qed.

(** X4: the output name keeps the extension of the input, and its name
    part is the one of the input followed by [_watermarked]: splitting
    [<name>_watermarked<ext>] again gives back [<name>_watermarked] and
    [<ext>], for every path [glob] can return (also a name without
    extension, or one made of a leading dot only). *)
Theorem output_filename_splitext (image_path : string) :
  PosixPath.splitext (output_filename (PosixPath.basename image_path))
  = (fst (PosixPath.splitext (PosixPath.basename image_path)) +:+ "_watermarked",
     snd (PosixPath.splitext (PosixPath.basename image_path))).
Proof.
  apply NameFacts.splitext_output_filename, PathFacts.basename_no_sep.
Qed.



(** ** Dates: what [strptime] accepts *)

Module CalendarFacts.
Import DateTime.











(** Only the two colons of the date are replaced. *)
Lemma replace_exif_format_app dt rest : valid dt ->
  PyStr.replace ":" "-" 2 (exif_format dt +:+ rest) = iso_format dt +:+ rest.
Proof.
  intros (Hy & Hm & Hd & _).
  assert (day dt <= 31) by (unfold days_in_month in Hd; repeat case_match; lia).
  unfold exif_format, iso_format, pad4, pad2.
  rewrite !append_assoc. norm_append.
  rewrite !DateTimeFacts.replace_digit by dlia.
  change (PyStr.replace ":" "-" 2 (String ":" ?s))
    with (String "-" (PyStr.replace ":" "-" 1 s)).
  rewrite !DateTimeFacts.replace_digit by dlia.
  change (PyStr.replace ":" "-" 1 (String ":" ?s))
    with (String "-" (PyStr.replace ":" "-" 0 s)).
  rewrite DateTimeFacts.replace_zero. reflexivity.
Qed.

(** In a value written with dashes the two colons replaced are those of
    the time. *)
Lemma replace_iso_format dt : valid dt ->
  PyStr.replace ":" "-" 2 (iso_format dt)
  = pad4 (year dt) +:+ "-" +:+ pad2 (month dt) +:+ "-" +:+ pad2 (day dt)
    +:+ " " +:+ pad2 (hour dt) +:+ "-" +:+ pad2 (minute dt) +:+ "-"
    +:+ pad2 (second dt).
Proof.
  intros (Hy & Hm & Hd & Hh & Hmi & Hs).
  assert (day dt <= 31) by (unfold days_in_month in Hd; repeat case_match; lia).
  unfold iso_format, pad4, pad2. norm_append.
  rewrite !DateTimeFacts.replace_digit by dlia.
  change (PyStr.replace ":" "-" 2 (String "-" ?s))
    with (String "-" (PyStr.replace ":" "-" 2 s)).
  rewrite !DateTimeFacts.replace_digit by dlia.
  change (PyStr.replace ":" "-" 2 (String "-" ?s))
    with (String "-" (PyStr.replace ":" "-" 2 s)).
  rewrite !DateTimeFacts.replace_digit by dlia.
  change (PyStr.replace ":" "-" 2 (String " " ?s))
    with (String " " (PyStr.replace ":" "-" 2 s)).
  rewrite !DateTimeFacts.replace_digit by dlia.
  change (PyStr.replace ":" "-" 2 (String ":" ?s))
    with (String "-" (PyStr.replace ":" "-" 1 s)).
  rewrite !DateTimeFacts.replace_digit by dlia.
  change (PyStr.replace ":" "-" 1 (String ":" ?s))
    with (String "-" (PyStr.replace ":" "-" 0 s)).
  rewrite DateTimeFacts.replace_zero. reflexivity.
Qed.

Lemma match_iso_format dt rest : valid dt ->
  match_Ymd_HMS (iso_format dt +:+ rest) = Some (dt, rest).
Proof.
  intros (Hy & Hm & Hd & Hh & Hmi & Hs).
  assert (day dt <= 31) by (unfold days_in_month in Hd; repeat case_match; lia).
  unfold match_Ymd_HMS, iso_format. rewrite !append_assoc.
  rewrite DateTimeFacts.take_Y_pad4 by lia.
  cbn [bindp]. norm_append. cbn [lit Ascii.eqb Bool.eqb bindp].
  rewrite DateTimeFacts.take_m_pad2 by lia.
  cbn [bindp]. norm_append. cbn [lit Ascii.eqb Bool.eqb bindp].
  rewrite DateTimeFacts.take_d_pad2 by lia. cbn [bindp]. norm_append.
  change (spaces1 (String " " ?s)) with (Some (tt, skip_spaces s)).
  rewrite DateTimeFacts.skip_spaces_pad2 by lia. cbn [bindp].
  rewrite DateTimeFacts.take_H_pad2 by lia.
  cbn [bindp]. norm_append. cbn [lit Ascii.eqb Bool.eqb bindp].
  rewrite DateTimeFacts.take_M_pad2 by lia.
  cbn [bindp]. norm_append. cbn [lit Ascii.eqb Bool.eqb bindp].
  rewrite DateTimeFacts.take_S_pad2 by lia. cbn [bindp].
  destruct dt; reflexivity.
Qed.

Lemma strptime_trailing dt rest : valid dt -> rest <> "" ->
  strptime_Ymd_HMS (iso_format dt +:+ rest) = inl (UnconvertedData rest).
Proof.
  intros Hv Hrest. unfold strptime_Ymd_HMS.
  rewrite (match_iso_format _ _ Hv).
  apply String.eqb_neq in Hrest. now rewrite Hrest.
Qed.

Lemma strptime_dashed_time dt : valid dt ->
  strptime_Ymd_HMS (PyStr.replace ":" "-" 2 (iso_format dt)) = inl NoMatch.
Proof.
  intros Hv. rewrite (replace_iso_format _ Hv).
  destruct Hv as (Hy & Hm & Hd & Hh & Hmi & Hs).
  assert (day dt <= 31) by (unfold days_in_month in Hd; repeat case_match; lia).
  unfold strptime_Ymd_HMS, match_Ymd_HMS.
  rewrite DateTimeFacts.take_Y_pad4 by lia.
  cbn [bindp]. norm_append. cbn [lit Ascii.eqb Bool.eqb bindp].
  rewrite DateTimeFacts.take_m_pad2 by lia.
  cbn [bindp]. norm_append. cbn [lit Ascii.eqb Bool.eqb bindp].
  rewrite DateTimeFacts.take_d_pad2 by lia. cbn [bindp]. norm_append.
  change (spaces1 (String " " ?s)) with (Some (tt, skip_spaces s)).
  rewrite DateTimeFacts.skip_spaces_pad2 by lia. cbn [bindp].
  rewrite DateTimeFacts.take_H_pad2 by lia.
  cbn [bindp]. norm_append. cbn [lit Ascii.eqb Bool.eqb bindp].
  reflexivity.
Qed.

End CalendarFacts.

(** ** EXIF date extraction: the value of the tag *)

Section ExtractionValue.

Context {P : Platform}.




(** The extraction on an image whose dictionary has the tag. *)
Lemma get_exif_datetime_value path data w img items value :
  stat (w_fs w) path = Some (File data) ->
  decode data = Some img ->
  img_exif img = GetexifDict items ->
  NoDup items.*1 -> (306, value) ∈ items ->
  get_exif_datetime path w
  = match parse_datetime_value value with
    | Ok date => (Ok (Some date), log (EvOpen path) w)
    | Raise e => (Ok None, put_line (warning_line path e) (log (EvOpen path) w))
    end.
Proof.
  intros Hstat Hdec Hexif Hnd Hin.
  rewrite get_exif_datetime_eq. unfold exif_outcome, open_outcome.
  rewrite Hstat, Hdec, (read_exif_date_dict _ _ Hexif).
  rewrite (scan_exif_found _ _ Hnd Hin).
  now destruct (parse_datetime_value value).
Qed.

End ExtractionValue.



(** X7: a DateTime value with anything after the seconds (a time zone, a
    fraction, a blank) is malformed: [strptime] reports the unconverted
    rest, the extraction prints the warning and returns no value. *)
Theorem get_exif_datetime_trailing_data {P : Platform} (path data : string)
    (w : world) (img : image) (items : list (Z * exif_value))
    (dt : DateTime.datetime) (rest : string) :
  stat (w_fs w) path = Some (File data) ->
  decode data = Some img ->
  img_exif img = GetexifDict items ->
  NoDup items.*1 ->
  (306, ExifStr (DateTime.exif_format dt +:+ rest)) ∈ items ->
  DateTime.valid dt -> rest <> "" ->
  get_exif_datetime path w
  = (Ok None,
     put_line (warning_line path
                 (ValueError ("unconverted data remains: " +:+ rest)))
              (log (EvOpen path) w)).
Proof.
  intros Hstat Hdec Hexif Hnd Hin Hv Hrest.
  rewrite (get_exif_datetime_value _ _ _ _ _ _ Hstat Hdec Hexif Hnd Hin).
  unfold parse_datetime_value, value_replace.
  rewrite (CalendarFacts.replace_exif_format_app _ _ Hv).
  now rewrite (CalendarFacts.strptime_trailing _ _ Hv Hrest).
Qed.

Lemma get_exif_datetime_trailing_data_witness :
  get_exif_datetime (P := Demo.toy) "roll/z.jpg"
    (Demo.world_of [ (["roll"], Dir);
                     (["roll"; "z.jpg"], File "JPEG:2023:05:17 10:30:00+02:00") ])
  = (Ok None,
     put_line (warning_line "roll/z.jpg"
                 (ValueError ("unconverted data remains: " +:+ "+02:00")))
              (log (EvOpen "roll/z.jpg")
                 (Demo.world_of
                    [ (["roll"], Dir);
                      (["roll"; "z.jpg"], File "JPEG:2023:05:17 10:30:00+02:00") ]))).
Proof.
  apply (get_exif_datetime_trailing_data (P := Demo.toy) "roll/z.jpg"
           "JPEG:2023:05:17 10:30:00+02:00" _
           (mkImage "RGB" 640 480
              (GetexifDict [(271, ExifStr "Cam");
                            (306, ExifStr "2023:05:17 10:30:00+02:00")])
              "JPEG:2023:05:17 10:30:00+02:00" [])
           [(271, ExifStr "Cam"); (306, ExifStr "2023:05:17 10:30:00+02:00")]
           (DateTime.mkDateTime 2023 5 17 10 30 0) "+02:00").
  - vm_compute. reflexivity.
  - reflexivity.
  - reflexivity.
  - apply (bool_decide_unpack _). vm_compute. reflexivity.
  - right. left.
  - repeat split; vm_compute; discriminate.
  - discriminate.
Defined.

(** X8: a DateTime value whose date is already written with dashes
    (YYYY-MM-DD HH:MM:SS) is rejected: the two replacements then hit the
    colons of the time, the text no longer matches the format, and the
    extraction prints the warning and returns no value. *)
Theorem get_exif_datetime_dashed_date {P : Platform} (path data : string)
    (w : world) (img : image) (items : list (Z * exif_value))
    (dt : DateTime.datetime) :
  stat (w_fs w) path = Some (File data) ->
  decode data = Some img ->
  img_exif img = GetexifDict items ->
  NoDup items.*1 ->
  (306, ExifStr (DateTime.iso_format dt)) ∈ items ->
  DateTime.valid dt ->
  PyStr.replace ":" "-" 2 (DateTime.iso_format dt)
  = DateTime.pad4 (DateTime.year dt) +:+ "-" +:+ DateTime.pad2 (DateTime.month dt)
    +:+ "-" +:+ DateTime.pad2 (DateTime.day dt) +:+ " "
    +:+ DateTime.pad2 (DateTime.hour dt) +:+ "-"
    +:+ DateTime.pad2 (DateTime.minute dt) +:+ "-"
    +:+ DateTime.pad2 (DateTime.second dt)
  /\ get_exif_datetime path w
     = (Ok None,
        put_line (warning_line path
                    (ValueError
                       ("time data '"
                        +:+ PyStr.replace ":" "-" 2 (DateTime.iso_format dt)
                        +:+ "' does not match format '%Y-%m-%d %H:%M:%S'")))
                 (log (EvOpen path) w)).
Proof.
  intros Hstat Hdec Hexif Hnd Hin Hv.
  split; [now apply CalendarFacts.replace_iso_format |].
  rewrite (get_exif_datetime_value _ _ _ _ _ _ Hstat Hdec Hexif Hnd Hin).
  unfold parse_datetime_value, value_replace.
  now rewrite (CalendarFacts.strptime_dashed_time _ Hv).
Qed.

Lemma get_exif_datetime_dashed_date_witness :
  get_exif_datetime (P := Demo.toy) "roll/i.jpg"
    (Demo.world_of [ (["roll"], Dir);
                     (["roll"; "i.jpg"], File "JPEG:2023-05-17 10:30:00") ])
  = (Ok None,
     put_line (warning_line "roll/i.jpg"
                 (ValueError "time data '2023-05-17 10-30-00' does not match format '%Y-%m-%d %H:%M:%S'"))
              (log (EvOpen "roll/i.jpg")
                 (Demo.world_of
                    [ (["roll"], Dir);
                      (["roll"; "i.jpg"], File "JPEG:2023-05-17 10:30:00") ]))).
Proof.
  refine (proj2 (get_exif_datetime_dashed_date (P := Demo.toy) "roll/i.jpg"
           "JPEG:2023-05-17 10:30:00" _
           (mkImage "RGB" 640 480
              (GetexifDict [(271, ExifStr "Cam");
                            (306, ExifStr "2023-05-17 10:30:00")])
              "JPEG:2023-05-17 10:30:00" [])
           [(271, ExifStr "Cam"); (306, ExifStr "2023-05-17 10:30:00")]
           (DateTime.mkDateTime 2023 5 17 10 30 0) _ _ _ _ _ _)).
  - vm_compute. reflexivity.
  - reflexivity.
  - reflexivity.
  - apply (bool_decide_unpack _). vm_compute. reflexivity.
  - right. left.
  - repeat split; vm_compute; discriminate.
Defined.

(** ** Watermark renderer: what is drawn and what is touched *)

Section SaveTarget.

Implicit Types (fs : gmap (list string) node) (p : list string).

Lemma lookup_path_key fs p x :
  p <> [] -> lookup_path fs p = Some x -> fs !! p = Some x.
Proof.
  intros Hne. destruct (exists_last Hne) as (q & n & ->).
  rewrite lookup_path_snoc. now destruct (lookup_path fs q) as [[] |].
Qed.

(** [save] writes under the key its path names, and never over a
    directory. *)
Lemma save_target_inr fs path p :
  save_target fs path = inr p ->
  p = PosixPath.resolve path /\ fs !! p <> Some Dir.
Proof.
  unfold save_target, stat.
  destruct (String.eqb_spec path "") as [-> | Hne]; [discriminate |].
  destruct (lookup_path fs (PosixPath.resolve path)) as [[data |] |] eqn:Hl.
  - intros [= <-]. split; [reflexivity |].
    destruct (PosixPath.resolve path) as [| c q] eqn:Hp; [discriminate |].
    assert (Hne' : c :: q <> []) by discriminate.
    rewrite (lookup_path_key _ _ _ Hne' Hl). discriminate.
  - discriminate.
  - destruct (lookup_path fs (removelast _)) as [[data |] |] eqn:Hparent;
      try discriminate.
    intros [= <-]. split; [reflexivity |].
    destruct (PosixPath.resolve path) as [| c q] eqn:Hp; [discriminate |].
    assert (Hne' : c :: q <> []) by discriminate.
    destruct (exists_last Hne') as (q' & n & Heq). rewrite Heq in *.
    rewrite removelast_last in Hparent.
    rewrite lookup_path_snoc, Hparent in Hl. now rewrite Hl.
Qed.

End SaveTarget.

Section RendererCases.

Context {P : Platform}.



(** The events of [add_watermark]. *)
Lemma add_watermark_log path out font_size color position w :
  w_log (snd (add_watermark path out font_size color position w))
  = w_log w ++ watermark_events (w_fs w) path out font_size.
Proof.
  unfold add_watermark, try_except, bind, watermark_events, watermark_text_of.
  rewrite get_exif_datetime_eq.
  assert (Hlog : forall r l, w_log (match r : result (option string) with
                      | Ok r' => (Ok r', log (EvOpen path) w)
                      | Raise e => (Ok None, put_line l (log (EvOpen path) w))
                      end).2 = w_log w ++ [EvOpen path])
    by (intros [] ?; reflexivity).
  destruct (exif_outcome (w_fs w) path) as [r | e0] eqn:Hex;
    unfold Image_open; cbn [w_fs log put_line w_log];
    (destruct (open_outcome (w_fs w) path) as [img | e] eqn:Ho;
     [ unfold draw_textbbox;
       destruct (textbbox _ _) as [[[[x0 y0] x1] y1] |];
       [ cbn [ret raise]; destruct (get_position_coordinates _ _ _ _ _) as [x y];
         unfold Image_save; cbn [w_fs log put_line w_log];
         destruct (encode out _) as [data |];
         [ destruct (save_target (w_fs w) out) as [e | p] eqn:Hs;
           [ rewrite (save_target_Exception _ _ _ Hs) |] |] |]
     | rewrite (open_outcome_Exception _ _ _ Ho) ]);
    cbn; rewrite <- ?app_assoc; reflexivity.
Qed.

(** What [add_watermark] does, case by case. *)
Lemma add_watermark_cases path out font_size color position w :
  exists w',
    add_watermark path out font_size color position w = (Ok tt, w')
    /\ w_console w'
       = w_console w ++ watermark_lines (w_fs w) path out font_size color position
    /\ ((exists e,
           render_outcome (w_fs w) path out font_size color position = Raise e
           /\ w_fs w' = w_fs w)
        \/ (exists img img' data,
              render_outcome (w_fs w) path out font_size color position
              = Ok (PosixPath.resolve out, data)
              /\ open_outcome (w_fs w) path = Ok img
              /\ watermark_image img (watermark_text_of (w_fs w) path)
                   font_size color position = Ok img'
              /\ encode out img' = Some data
              /\ w_fs w !! PosixPath.resolve out <> Some Dir
              /\ w_fs w' = <[PosixPath.resolve out := File data]> (w_fs w))).
Proof.
  destruct (add_watermark_eq path out font_size color position w)
    as (w' & Hrun & Hfs & Hcon).
  exists w'. split; [exact Hrun |]. split; [exact Hcon |].
  destruct (render_outcome _ _ _ _ _ _) as [[p data] | e] eqn:Hr; [| left; eauto].
  right. unfold render_outcome in Hr.
  destruct (open_outcome (w_fs w) path) as [img |]; [| discriminate].
  destruct (watermark_image _ _ _ _ _) as [img' |] eqn:Hw; [| discriminate].
  destruct (encode out img') as [data' |] eqn:He; [| discriminate].
  destruct (save_target (w_fs w) out) as [e | p'] eqn:Hs; [discriminate |].
  injection Hr as -> ->. apply save_target_inr in Hs as [-> Hnd].
  exists img, img', data. repeat split; trivial.
Qed.

End RendererCases.

(** X9: [add_watermark] returns normally on every input.  Of the file
    system only the entry the output path names can change, and it is then
    a regular file that replaces no directory: no directory is made,
    removed or overwritten.  The image is opened twice (once by the
    extraction, once by the renderer) and [save] is reached at most
    once. *)
Theorem add_watermark_frame {P : Platform} (path out : string) (font_size : Z)
    (color position : string) (w : world) :
  exists w',
    add_watermark path out font_size color position w = (Ok tt, w')
    /\ (forall k, k <> PosixPath.resolve out -> w_fs w' !! k = w_fs w !! k)
    /\ (w_fs w' = w_fs w
        \/ exists data,
             w_fs w' !! PosixPath.resolve out = Some (File data)
             /\ w_fs w !! PosixPath.resolve out <> Some Dir)
    /\ (forall k, w_fs w' !! k = Some Dir <-> w_fs w !! k = Some Dir)
    /\ exists saves,
         w_log w' = w_log w ++ [EvOpen path; EvOpen path] ++ saves
         /\ (saves = [] \/ saves = [EvSave out]).
Proof.
  destruct (add_watermark_cases path out font_size color position w)
    as (w' & Hrun & _ & Hcases).
  exists w'. split; [exact Hrun |].
  assert (Hlog : exists saves,
             w_log w' = w_log w ++ [EvOpen path; EvOpen path] ++ saves
             /\ (saves = [] \/ saves = [EvSave out])).
  { pose proof (add_watermark_log path out font_size color position w) as Hl.
    rewrite Hrun in Hl. cbn [snd] in Hl. rewrite Hl. unfold watermark_events.
    eexists. split; [reflexivity |].
    destruct (open_outcome _ _); [destruct (textbbox _ _) |]; auto. }
  destruct Hcases as [(e & _ & Hfs) | (img & img' & data & _ & _ & _ & _ & Hnd & Hfs)].
  - rewrite Hfs. repeat split; auto.
  - rewrite Hfs. split; [| split; [| split; [| exact Hlog]]].
    + intros k Hk. now rewrite lookup_insert_ne.
    + right. exists data. now rewrite lookup_insert_eq.
    + intros k. destruct (decide (k = PosixPath.resolve out)) as [-> | Hk].
      * rewrite lookup_insert_eq. split; [discriminate | contradiction].
      * now rewrite lookup_insert_ne.
Qed.




(** X12: a file that cannot be opened as an image is opened twice and
    reported twice: the extraction prints its warning, the renderer fails
    on the same file and prints the error with the same message; nothing
    is written and [save] is not reached. *)
Theorem add_watermark_unopenable {P : Platform} (path out : string)
    (font_size : Z) (color position : string) (w : world) (e : exn) :
  open_outcome (w_fs w) path = Raise e ->
  add_watermark path out font_size color position w
  = (Ok tt,
     mkWorld (w_fs w)
             (w_console w ++ [warning_line path e; error_line path e])
             (w_log w ++ [EvOpen path; EvOpen path])).
Proof.
  intros Ho. pose proof (open_outcome_Exception _ _ _ Ho) as He.
  unfold add_watermark, try_except, bind.
  rewrite get_exif_datetime_eq. unfold exif_outcome. rewrite Ho.
  unfold Image_open. cbn [w_fs log put_line]. rewrite Ho, He.
  unfold print, put_line, log. cbn. now rewrite <- !app_assoc.
Qed.

Lemma add_watermark_unopenable_witness :
  add_watermark (P := Demo.toy) "broken/bad.jpg" "broken/out.jpg" 36 "white"
                "bottom-right" Demo.broken
  = (Ok tt,
     mkWorld (w_fs Demo.broken)
             (w_console Demo.broken
              ++ [warning_line "broken/bad.jpg"
                    (UnidentifiedImageError "broken/bad.jpg");
                  error_line "broken/bad.jpg"
                    (UnidentifiedImageError "broken/bad.jpg")])
             (w_log Demo.broken
              ++ [EvOpen "broken/bad.jpg"; EvOpen "broken/bad.jpg"])).
Proof.
  apply (add_watermark_unopenable (P := Demo.toy)). vm_compute. reflexivity.
Defined.

(** ** Command line: how the program ends *)

Section Returns.

Context {P : Platform}.





End Returns.

(** X13: a regular file that has the name of the output directory stops
    the program before any image is read: [makedirs] raises
    FileExistsError, nobody catches it, and the run ends with status 1
    after the three lines of the header; no file is opened, written or
    changed. *)
Theorem main_output_dir_blocked {P : Platform} (a : args) (w : world)
    (data : string) :
  is_dir (w_fs w) (input_dir a) = true ->
  w_fs w !! PosixPath.resolve (output_dir_of (input_dir a)) = Some (File data) ->
  main a w
  = (Raise (FileExistsError (output_dir_of (input_dir a))),
     mkWorld (w_fs w)
       (w_console w
        ++ [ "Processing images in: " +:+ input_dir a;
             "Settings: Font Size=" +:+ PyStr.of_Z (font_size a)
             +:+ ", Color=" +:+ color a +:+ ", Position=" +:+ position a;
             dashes ])
       (w_log w ++ [EvMakedirs (output_dir_of (input_dir a))]))
  /\ exit_status (fst (main a w)) = 1.
Proof.
  intros Hdir Hfile.
  assert (Hmain : main a w
    = (Raise (FileExistsError (output_dir_of (input_dir a))),
       mkWorld (w_fs w)
         (w_console w
          ++ [ "Processing images in: " +:+ input_dir a;
               "Settings: Font Size=" +:+ PyStr.of_Z (font_size a)
               +:+ ", Color=" +:+ color a +:+ ", Position=" +:+ position a;
               dashes ])
         (w_log w ++ [EvMakedirs (output_dir_of (input_dir a))]))).
  { rewrite (main_existing_directory _ _ Hdir).
    rewrite (process_directory_blocked _ _ _ _ _ data) by assumption.
    unfold log, put_line. cbn. now rewrite <- !app_assoc. }
  rewrite Hmain. split; reflexivity.
Qed.

Lemma main_output_dir_blocked_witness :
  exit_status
    (fst (main (P := Demo.toy) (mkArgs "photos" 36 "white" "bottom-right")
            (Demo.world_of [ (["photos"], Dir);
                             (["photos"; "a.jpg"], File "JPEG:2023:05:17 10:30:00");
                             (["photos"; "photos_watermark"], File "taken") ])))
  = 1.
Proof.
  apply (main_output_dir_blocked (P := Demo.toy)
           (mkArgs "photos" 36 "white" "bottom-right") _ "taken").
  - vm_compute. reflexivity.
  - vm_compute. reflexivity.
Defined.


(** ** Directory batch driver: the trace of a run *)

Section Trace.

Context {P : Platform}.
Variables (input_dir : string) (font_size : Z) (color position : string).
Variable fsA : gmap (list string) node.

Abbreviation D := (PosixPath.resolve input_dir).
Abbreviation X := (PosixPath.basename input_dir +:+ "_watermark").
Abbreviation out_of p := (output_path_of input_dir p).
Abbreviation overlaid_on := (overlaid fsA input_dir font_size color position).
Abbreviation lines_of :=
  (fun p => watermark_lines fsA p (out_of p) font_size color position).
Abbreviation events_of :=
  (fun p => watermark_events fsA p (out_of p) font_size).
Abbreviation files_of ext :=
  (List.filter (is_file fsA) (glob_paths fsA (PosixPath.join input_dir ext))).

Hypothesis HO : lookup_path fsA (D ++ [X]) = Some Dir.
Hypothesis Hmagic : PosixPath.has_magic input_dir = false.

Lemma overlaid_lines done fs p :
  overlaid_on done fs -> input_like input_dir p ->
  watermark_lines fs p (out_of p) font_size color position = lines_of p.
Proof.
  intros Hov Hp. unfold watermark_lines.
  rewrite (overlaid_render _ _ _ _ _ HO _ _ Hov _ Hp).
  unfold exif_outcome, open_outcome.
  now rewrite (overlaid_stat _ _ _ _ _ HO _ _ Hov _ Hp).
Qed.

Lemma overlaid_events done fs p :
  overlaid_on done fs -> input_like input_dir p ->
  watermark_events fs p (out_of p) font_size = events_of p.
Proof.
  intros Hov Hp.
  unfold watermark_events, watermark_text_of, exif_outcome, open_outcome.
  now rewrite (overlaid_stat _ _ _ _ _ HO _ _ Hov _ Hp).
Qed.

(** One round of the inner loop, with what it prints and logs. *)
Lemma process_file_trace done p c w :
  overlaid_on done (w_fs w) -> input_like input_dir p ->
  exists w',
    process_file (output_dir_of input_dir) font_size color position p c w
    = (Ok (c + (if is_file fsA p then 1 else 0)), w')
    /\ overlaid_on (p :: done) (w_fs w')
    /\ w_console w' = w_console w ++ (if is_file fsA p then lines_of p else [])
    /\ w_log w' = w_log w ++ (if is_file fsA p then events_of p else []).
Proof.
  intros Hov Hp.
  destruct (process_file_step _ _ _ _ _ HO done p c w Hov Hp)
    as (w' & lines & Hrun & Hov' & _).
  exists w'. split; [exact Hrun |]. split; [exact Hov' |].
  unfold process_file, bind, isfile in Hrun.
  rewrite (overlaid_is_file _ _ _ _ _ HO _ _ Hov _ Hp) in Hrun.
  destruct (is_file fsA p).
  - fold (out_of p) in Hrun.
    destruct (add_watermark_eq p (out_of p) font_size color position w)
      as (w1 & Hw1 & _ & Hcon).
    pose proof (add_watermark_log p (out_of p) font_size color position w) as Hlog.
    rewrite Hw1 in Hrun, Hlog. cbn [snd] in Hlog. unfold ret in Hrun.
    assert (Hw : w1 = w') by congruence. subst w'.
    rewrite Hcon, Hlog.
    now rewrite (overlaid_lines _ _ _ Hov Hp), (overlaid_events _ _ _ Hov Hp).
  - unfold ret in Hrun. assert (Hw : w = w') by congruence. subst w'.
    now rewrite !app_nil_r.
Qed.

(** The inner loop. *)
Lemma process_files_trace paths done c w :
  overlaid_on done (w_fs w) -> Forall (input_like input_dir) paths ->
  exists w',
    for_each paths
      (process_file (output_dir_of input_dir) font_size color position) c w
    = (Ok (c + Z.of_nat (length (List.filter (is_file fsA) paths))), w')
    /\ overlaid_on (paths ++ done) (w_fs w')
    /\ w_console w'
       = w_console w ++ flat_map lines_of (List.filter (is_file fsA) paths)
    /\ w_log w'
       = w_log w ++ flat_map events_of (List.filter (is_file fsA) paths).
Proof.
  revert done c w. induction paths as [| p paths IH]; intros done c w Hov Hall.
  - exists w. cbn. rewrite Z.add_0_r, !app_nil_r. auto.
  - apply Forall_cons in Hall as [Hp Hall].
    destruct (process_file_trace done p c w Hov Hp)
      as (w1 & Hstep & Hov1 & Hc1 & Hl1).
    destruct (IH (p :: done) (c + (if is_file fsA p then 1 else 0)) w1 Hov1 Hall)
      as (w2 & Hrun & Hov2 & Hc2 & Hl2).
    exists w2. cbn [for_each]. unfold bind at 1. rewrite Hstep, Hrun.
    split; [| split; [| split]].
    + f_equal. f_equal. cbn [List.filter].
      destruct (is_file fsA p); cbn [length]; lia.
    + eapply overlaid_equiv; [| exact Hov2].
      intros q. rewrite !elem_of_app, !elem_of_cons. tauto.
    + rewrite Hc2, Hc1. cbn [List.filter].
      destruct (is_file fsA p); cbn [flat_map];
        now rewrite <- ?app_assoc, ?app_nil_r.
    + rewrite Hl2, Hl1. cbn [List.filter].
      destruct (is_file fsA p); cbn [flat_map];
        now rewrite <- ?app_assoc, ?app_nil_r.
Qed.

(** The outer loop: for every pattern, in the order of the list, the
    files [glob] returned for it (those of the listing, in some order). *)
Lemma process_patterns_trace exts done c w :
  overlaid_on done (w_fs w) -> Forall driver_pattern exts ->
  exists w' (runs : list (string * list string)),
    for_each exts
      (process_pattern input_dir (output_dir_of input_dir)
                       font_size color position) c w
    = (Ok (c + Z.of_nat (length (flat_map snd runs))), w')
    /\ map fst runs = exts
    /\ Forall (fun r => snd r ≡ₚ files_of (fst r)) runs
    /\ w_console w' = w_console w ++ flat_map (fun r => flat_map lines_of (snd r)) runs
    /\ w_log w'
       = w_log w
         ++ flat_map (fun r => EvGlob (PosixPath.join input_dir (fst r))
                               :: flat_map events_of (snd r)) runs.
Proof.
  revert done c w. induction exts as [| ext exts IH]; intros done c w Hov Hall.
  - exists w, []. cbn. rewrite Z.add_0_r, !app_nil_r. auto.
  - apply Forall_cons in Hall as [Hpat Hall].
    pose proof (overlaid_glob_paths _ _ _ _ _ HO Hmagic _ _ _ Hov Hpat) as Hperm.
    destruct (process_files_trace
                (glob_paths (w_fs w) (PosixPath.join input_dir ext)) done c
                (log (EvGlob (PosixPath.join input_dir ext)) w) Hov
                (glob_paths_input_like _ Hmagic _ _ Hpat))
      as (w1 & Hrun1 & Hov1 & Hc1 & Hl1).
    set (files := List.filter (is_file fsA)
                    (glob_paths (w_fs w) (PosixPath.join input_dir ext))) in *.
    destruct (IH _ (c + Z.of_nat (length files)) w1 Hov1 Hall)
      as (w2 & runs & Hrun2 & Hexts & Hruns & Hc2 & Hl2).
    exists w2, ((ext, files) :: runs). cbn [for_each]. unfold bind at 1.
    unfold process_pattern at 1, bind, glob. rewrite Hrun1, Hrun2.
    split; [| split; [| split; [| split]]].
    + f_equal. f_equal. cbn [flat_map snd]. rewrite length_app. lia.
    + cbn [map fst]. now rewrite Hexts.
    + constructor; [| exact Hruns]. cbn [fst snd].
      subst files. now apply Permutation_filter.
    + rewrite Hc2, Hc1. cbn [flat_map fst snd log w_console].
      now rewrite <- app_assoc.
    + rewrite Hl2, Hl1. cbn [flat_map fst snd log w_log].
      now rewrite <- !app_assoc.
Qed.

(** The files of all patterns together are the files found. *)
Lemma runs_enumerated (runs : list (string * list string)) :
  map fst runs = image_extensions ->
  Forall (fun r => snd r ≡ₚ files_of (fst r)) runs ->
  flat_map snd runs ≡ₚ enumerated fsA input_dir.
Proof.
  unfold enumerated. generalize image_extensions.
  induction runs as [| [ext files] runs IH]; intros exts Hexts Hruns.
  - now destruct exts.
  - destruct exts as [| ext' exts]; [discriminate |].
    cbn [map fst] in Hexts. injection Hexts as <- Hexts.
    apply Forall_cons in Hruns as [Hfiles Hruns]. cbn [flat_map fst snd] in *.
    apply Permutation_app; [exact Hfiles | now apply IH].
Qed.

End Trace.

Section TraceFacts.

Context {P : Platform}.

Lemma flat_map_flat_map {A B C : Type} (f : B -> list C) (g : A -> list B)
    (l : list A) :
  flat_map f (flat_map g l) = flat_map (fun x => flat_map f (g x)) l.
Proof.
  induction l as [| x l IH]; [reflexivity |].
  cbn [flat_map]. now rewrite flat_map_app, IH.
Qed.



(** The lines of one file: at most one warning, then success or error. *)
Lemma watermark_lines_shape fs path out font_size color position :
  exists warn final,
    watermark_lines fs path out font_size color position = warn ++ [final]
    /\ (warn = [] \/ exists e, warn = [warning_line path e])
    /\ (final = success_line path out \/ exists e, final = error_line path e).
Proof.
  unfold watermark_lines.
  destruct (exif_outcome fs path) as [r | e0];
    destruct (render_outcome _ _ _ _ _ _) as [kd | e1].
  - exists [], (success_line path out). repeat split; auto.
  - exists [], (error_line path e1). repeat split; eauto.
  - exists [warning_line path e0], (success_line path out).
    repeat split; eauto.
  - exists [warning_line path e0], (error_line path e1). repeat split; eauto.
Qed.

(** The run of the driver with what it prints and logs: pattern after
    pattern, the files found for the pattern. *)
Lemma process_directory_trace input_dir font_size color position w :
  PosixPath.has_magic input_dir = false ->
  is_dir (w_fs w) input_dir = true ->
  (forall data,
      w_fs w !! PosixPath.resolve (output_dir_of input_dir) <> Some (File data)) ->
  exists w' (runs : list (string * list string)),
    process_directory input_dir font_size color position w = (Ok tt, w')
    /\ map fst runs = image_extensions
    /\ flat_map snd runs ≡ₚ enumerated (w_fs w) input_dir
    /\ w_console w'
       = w_console w
         ++ flat_map (fun p => watermark_lines (with_output_dir input_dir (w_fs w))
                                 p (output_path_of input_dir p)
                                 font_size color position)
                     (flat_map snd runs)
         ++ [report (Z.of_nat (length (flat_map snd runs)))
                    (output_dir_of input_dir)]
    /\ w_log w'
       = w_log w
         ++ EvMakedirs (output_dir_of input_dir)
            :: flat_map
                 (fun r => EvGlob (PosixPath.join input_dir (fst r))
                           :: flat_map
                                (fun p => watermark_events
                                            (with_output_dir input_dir (w_fs w))
                                            p (output_path_of input_dir p) font_size)
                                (snd r))
                 runs.
Proof.
  intros Hmagic Hdir Hfile.
  pose proof (is_dir_inv _ _ Hdir) as [_ HD].
  pose proof (with_output_dir_there _ _ HD Hfile) as HO.
  unfold process_directory, bind. rewrite (makedirs_output_dir _ _ Hdir Hfile).
  destruct (process_patterns_trace input_dir font_size color position
              (with_output_dir input_dir (w_fs w)) HO Hmagic image_extensions [] 0
              (set_fs (with_output_dir input_dir (w_fs w))
                      (log (EvMakedirs (output_dir_of input_dir)) w))
              (overlaid_start _ _ _ _ _) image_extensions_patterns)
    as (w1 & runs & -> & Hexts & Hruns & Hcon & Hlog).
  exists (put_line (report (0 + Z.of_nat (length (flat_map snd runs)))
                      (output_dir_of input_dir)) w1), runs.
  split; [reflexivity |]. split; [exact Hexts |]. split; [| split].
  - rewrite (runs_enumerated _ _ _ Hexts Hruns).
    now apply enumerated_prepared.
  - cbn [put_line w_console]. rewrite Hcon. cbn [set_fs log w_console].
    now rewrite Z.add_0_l, flat_map_flat_map, <- app_assoc.
  - cbn [put_line w_log]. rewrite Hlog. cbn [set_fs log w_log].
    now rewrite <- app_assoc.
Qed.

End TraceFacts.



(** X16: what a run prints.  For every file found, in the order in which
    [glob] returned them, the run prints the lines of that file: the
    warning of the extraction if there is one, then exactly one line,
    Success or Error; then it prints the report, whose count is the number
    of files found.  Nothing else is printed. *)
Theorem process_directory_console {P : Platform} (input_dir : string)
    (font_size : Z) (color position : string) (w : world) :
  PosixPath.has_magic input_dir = false ->
  is_dir (w_fs w) input_dir = true ->
  (forall data,
      w_fs w !! PosixPath.resolve (output_dir_of input_dir) <> Some (File data)) ->
  exists w' paths,
    process_directory input_dir font_size color position w = (Ok tt, w')
    /\ paths ≡ₚ enumerated (w_fs w) input_dir
    /\ w_console w'
       = w_console w
         ++ flat_map (fun p => watermark_lines (with_output_dir input_dir (w_fs w))
                                 p (output_path_of input_dir p)
                                 font_size color position) paths
         ++ [report (Z.of_nat (length paths)) (output_dir_of input_dir)]
    /\ forall p,
         exists warn final,
           watermark_lines (with_output_dir input_dir (w_fs w))
             p (output_path_of input_dir p) font_size color position
           = warn ++ [final]
           /\ (warn = [] \/ exists e, warn = [warning_line p e])
           /\ (final = success_line p (output_path_of input_dir p)
               \/ exists e, final = error_line p e).
Proof.
  intros Hmagic Hdir Hfile.
  destruct (process_directory_trace input_dir font_size color position w
              Hmagic Hdir Hfile) as (w' & runs & Hrun & _ & Hperm & Hcon & _).
  exists w', (flat_map snd runs). repeat split; trivial.
  intros p. apply watermark_lines_shape.
Qed.

Lemma process_directory_console_witness :
  exists w' paths,
    process_directory (P := Demo.toy) "photos" 36 "white" "bottom-right"
                      Demo.photos = (Ok tt, w')
    /\ paths ≡ₚ enumerated (P := Demo.toy) (w_fs Demo.photos) "photos"
    /\ w_console w'
       = w_console Demo.photos
         ++ flat_map (fun p => watermark_lines (P := Demo.toy)
                                 (with_output_dir "photos" (w_fs Demo.photos))
                                 p (output_path_of "photos" p)
                                 36 "white" "bottom-right") paths
         ++ [report (Z.of_nat (length paths)) (output_dir_of "photos")].
Proof.
  destruct (process_directory_console (P := Demo.toy) "photos" 36 "white"
              "bottom-right" Demo.photos)
    as (w' & paths & Hrun & Hperm & Hcon & _).
  - reflexivity.
  - vm_compute. reflexivity.
  - intros data. vm_compute. discriminate.
  - exists w', paths. auto.
Defined.



(** ** The text of the watermark, and the files that get one *)



